(** * Debt tracker: state model, derived views, migration and handlers

    A shallow embedding of the React component [App] of the debt tracker
    (state atoms, memoised derivations, effects and event handlers) and of
    the entity types it imports, followed by the properties of the
    specification that were checked against it.

    Conventions of the embedding.
    - A JavaScript [number] is modelled by [number]: NaN, the two
      infinities, and the finite values as exact rationals.  The special
      cases of the arithmetic follow IEEE 754 as JavaScript exposes them;
      on finite values the operations are exact (no rounding, no overflow,
      one zero).
    - [localStorage] is a finite map from keys to [blob]s; a blob stands
      for the JSON text stored under a key, so [JSON.stringify] is the
      blob constructor and [JSON.parse] is the matching projection, which
      fails on every other blob.
    - The platform functions the component calls ([parseFloat],
      [new Date(s).getTime()], the locale formatting behind [formatDate])
      are parameters of the development; what the environment answers
      during one event ([crypto.randomUUID()], the clock,
      [window.confirm]) is an argument of the handler.
    - A handler is a function from the state of the render it closes over
      to the list of state updates it queues; [dispatch] applies the
      queue and then runs the effects whose dependencies were set.
    - The handlers of the three forms run on the [submit] event, behind
      the constraint validation of the fields; [reachable] collects the
      states of a mounted component. *)

From Stdlib Require Import QArith Qreduction Lqa Ascii String DecimalString
  Sorting.Sorted Permutation.
From stdpp Require Import base option list strings gmap sorting.

Local Open Scope string_scope.
Local Open Scope list_scope.

(** ** JavaScript numbers *)

Inductive number : Type :=
  | NaN
  | NegInf
  | Fin (q : Q)
  | PosInf.

Module Num.

Definition of_Z (z : Z) : number := Fin (inject_Z z).

Definition zero : number := of_Z 0.
Definition hundred : number := of_Z 100.

Definition Qpos_bool (q : Q) : bool := negb (Qle_bool q 0).
Definition Qlt_bool (a b : Q) : bool := negb (Qle_bool b a).

(** [isNaN(x)] *)
Definition isNaN (x : number) : bool :=
  match x with NaN => true | _ => false end.

Definition isFinite (x : number) : bool :=
  match x with Fin _ => true | _ => false end.

(** [x + y] *)
Definition add (x y : number) : number :=
  match x, y with
  | NaN, _ | _, NaN => NaN
  | Fin a, Fin b => Fin (Qred (a + b))
  | PosInf, NegInf | NegInf, PosInf => NaN
  | PosInf, _ | _, PosInf => PosInf
  | NegInf, _ | _, NegInf => NegInf
  end.

(** [x - y] *)
Definition sub (x y : number) : number :=
  match x, y with
  | NaN, _ | _, NaN => NaN
  | Fin a, Fin b => Fin (Qred (a - b))
  | PosInf, PosInf | NegInf, NegInf => NaN
  | PosInf, _ | _, NegInf => PosInf
  | NegInf, _ | _, PosInf => NegInf
  end.

(** the infinity with the sign of [q], for [q] not zero *)
Definition inf_of_sign (q : Q) : number :=
  if Qpos_bool q then PosInf else NegInf.

(** [x * y] *)
Definition mul (x y : number) : number :=
  match x, y with
  | NaN, _ | _, NaN => NaN
  | Fin a, Fin b => Fin (Qred (a * b))
  | PosInf, Fin q | Fin q, PosInf =>
      if Qeq_bool q 0 then NaN else inf_of_sign q
  | NegInf, Fin q | Fin q, NegInf =>
      if Qeq_bool q 0 then NaN else inf_of_sign (- q)
  | PosInf, PosInf | NegInf, NegInf => PosInf
  | PosInf, NegInf | NegInf, PosInf => NegInf
  end.

(** [x / y]; the only zero of the model is the positive one *)
Definition div (x y : number) : number :=
  match x, y with
  | NaN, _ | _, NaN => NaN
  | Fin a, Fin b =>
      if Qeq_bool b 0
      then (if Qeq_bool a 0 then NaN else inf_of_sign a)
      else Fin (Qred (a / b))
  | Fin _, (PosInf | NegInf) => zero
  | PosInf, Fin q => if Qle_bool 0 q then PosInf else NegInf
  | NegInf, Fin q => if Qle_bool 0 q then NegInf else PosInf
  | (PosInf | NegInf), (PosInf | NegInf) => NaN
  end.

(** [x <= y] *)
Definition leb (x y : number) : bool :=
  match x, y with
  | NaN, _ | _, NaN => false
  | NegInf, _ | _, PosInf => true
  | Fin a, Fin b => Qle_bool a b
  | _, _ => false
  end.

(** [x < y] *)
Definition ltb (x y : number) : bool :=
  match x, y with
  | NaN, _ | _, NaN => false
  | NegInf, NegInf | PosInf, PosInf => false
  | NegInf, _ | _, PosInf => true
  | Fin a, Fin b => Qlt_bool a b
  | _, _ => false
  end.

(** [Math.max(x, y)] *)
Definition max (x y : number) : number :=
  match x, y with
  | NaN, _ | _, NaN => NaN
  | _, _ => if ltb x y then y else x
  end.

(** [Math.min(x, y)] *)
Definition min (x y : number) : number :=
  match x, y with
  | NaN, _ | _, NaN => NaN
  | _, _ => if ltb y x then y else x
  end.

(** neither [NaN] nor the positive infinity *)
Definition bounded_above (x : number) : bool :=
  match x with
  | Fin _ | NegInf => true
  | NaN | PosInf => false
  end.

(** a finite, strictly positive number: what the data model calls a
    positive decimal amount *)
Definition positive (x : number) : Prop :=
  isFinite x = true /\ ltb zero x = true.

End Num.

Declare Scope num_scope.
Delimit Scope num_scope with num.
Bind Scope num_scope with number.
Infix "+" := Num.add : num_scope.
Infix "-" := Num.sub : num_scope.
Infix "*" := Num.mul : num_scope.
Infix "/" := Num.div : num_scope.
Infix "<=?" := Num.leb : num_scope.
Infix "<?" := Num.ltb : num_scope.

(** ** Entities (the interfaces [Debt], [Payment] and [AnalysisResult]) *)

Module Debt.
Record t : Type := mk {
  id : string;
  creditorName : string;
  totalAmount : number;
  startDate : string;
}.

(** [{ ...d, totalAmount: n }] *)
Definition withTotalAmount (d : t) (n : number) : t :=
  {| id := id d; creditorName := creditorName d;
     totalAmount := n; startDate := startDate d |}.
End Debt.

Module Payment.
Record t : Type := mk {
  id : string;
  debtId : string;
  date : string;
  amount : number;
  note : string;
}.
End Payment.

Inductive Tone : Type := positive_tone | neutral_tone | concerned_tone.

Module AnalysisResult.
Record t : Type := mk {
  message : string;
  estimatedCompletion : option string;
  tone : Tone;
}.
End AnalysisResult.

(** One element of [chartData]. *)
Module ChartPoint.
Record t : Type := mk {
  date : string;
  balance : number;
  paid : number;
}.
End ChartPoint.

(** Modelled from the spec: the record shapes of the previous storage
    layout, which the component reads untyped.  The settings record has
    the fields the migration accesses ([isSet], [creditorName],
    [totalAmount], [startDate]); a legacy payment has the fields of
    [Payment] without [debtId] ([id], [date], [amount], [note]). *)
Module Legacy.
Record settings : Type := mkSettings {
  isSet : bool;
  creditorName : string;
  totalAmount : number;
  startDate : string;
}.

Record payment : Type := mkPayment {
  id : string;
  date : string;
  amount : number;
  note : string;
}.

(** [{ ...p, debtId: newId }] *)
Definition retag (newId : string) (p : payment) : Payment.t :=
  {| Payment.id := id p; Payment.debtId := newId; Payment.date := date p;
     Payment.amount := amount p; Payment.note := note p |}.
End Legacy.

(** ** The blob store *)

Definition STORAGE_KEY_DEBTS : string := "debt_tracker_debts_v1".
Definition STORAGE_KEY_PAYMENTS : string := "debt_tracker_payments_v2".
Definition LEGACY_STORAGE_SETTINGS : string := "debt_tracker_settings_v1".
Definition LEGACY_STORAGE_PAYMENTS : string := "debt_tracker_payments_v1".

(** The text stored under a key: the JSON of one of the four collections
    the component writes or reads, or any other text. *)
Inductive blob : Type :=
  | JDebts (ds : list Debt.t)
  | JPayments (ps : list Payment.t)
  | JSettings (s : Legacy.settings)
  | JLegacyPayments (ps : list Legacy.payment)
  | JOther (text : string).

Abbreviation storage := (gmap string blob).

(** A stored string used as a condition: only the empty string is falsy. *)
Definition blob_truthy (b : blob) : bool :=
  match b with
  | JOther "" => false
  | _ => true
  end.

(** [if (localStorage.getItem(k))] *)
Definition stored (k : string) (ls : storage) : option blob :=
  match ls !! k with
  | Some b => if blob_truthy b then Some b else None
  | None => None
  end.

(** [JSON.parse] at each of the four uses.  [None]: the text is not the
    JSON of such a collection; the call throws. *)
Definition parseDebts (b : blob) : option (list Debt.t) :=
  match b with JDebts ds => Some ds | _ => None end.
Definition parsePayments (b : blob) : option (list Payment.t) :=
  match b with JPayments ps => Some ps | _ => None end.
Definition parseSettings (b : blob) : option Legacy.settings :=
  match b with JSettings s => Some s | _ => None end.
Definition parseLegacyPayments (b : blob) : option (list Legacy.payment) :=
  match b with JLegacyPayments ps => Some ps | _ => None end.

(** ** Component state

    The state atoms the handlers below read or write.  ([loadingAi],
    [isGeneratingTicket] and the ticket ref only serve the advisory call
    and the image export.) *)

Record State : Type := mkState {
  debts : list Debt.t;
  payments : list Payment.t;
  selectedDebtId : option string;
  showAddDebtModal : bool;
  showAddPaymentModal : bool;
  showEditTotalModal : bool;
  newCreditor : string;
  newTotalDebt : string;
  newPaymentAmount : string;
  newPaymentDate : string;
  newPaymentNote : string;
  editingTotalAmount : string;
  aiAnalysis : option AnalysisResult.t;
}.

(** The state of the first render; [today] is
    [new Date().toISOString().split("T")[0]]. *)
Definition initialState (today : string) : State :=
  {| debts := []; payments := []; selectedDebtId := None;
     showAddDebtModal := false; showAddPaymentModal := false;
     showEditTotalModal := false;
     newCreditor := ""; newTotalDebt := "";
     newPaymentAmount := ""; newPaymentDate := today; newPaymentNote := "";
     editingTotalAmount := ""; aiAnalysis := None |}.

(** A queued call of one of the state setters. *)
Inductive SetState : Type :=
  | setDebts (f : list Debt.t -> list Debt.t)
  | setPayments (f : list Payment.t -> list Payment.t)
  | setSelectedDebtId (v : option string)
  | setShowAddDebtModal (v : bool)
  | setShowAddPaymentModal (v : bool)
  | setShowEditTotalModal (v : bool)
  | setNewCreditor (v : string)
  | setNewTotalDebt (v : string)
  | setNewPaymentAmount (v : string)
  | setNewPaymentDate (v : string)
  | setNewPaymentNote (v : string)
  | setEditingTotalAmount (v : string)
  | setAiAnalysis (v : option AnalysisResult.t).

Definition applySet (s : State) (u : SetState) : State :=
  let 'mkState ds ps sel m1 m2 m3 cr td pa pd pn et ai := s in
  match u with
  | setDebts f => mkState (f ds) ps sel m1 m2 m3 cr td pa pd pn et ai
  | setPayments f => mkState ds (f ps) sel m1 m2 m3 cr td pa pd pn et ai
  | setSelectedDebtId v => mkState ds ps v m1 m2 m3 cr td pa pd pn et ai
  | setShowAddDebtModal v => mkState ds ps sel v m2 m3 cr td pa pd pn et ai
  | setShowAddPaymentModal v => mkState ds ps sel m1 v m3 cr td pa pd pn et ai
  | setShowEditTotalModal v => mkState ds ps sel m1 m2 v cr td pa pd pn et ai
  | setNewCreditor v => mkState ds ps sel m1 m2 m3 v td pa pd pn et ai
  | setNewTotalDebt v => mkState ds ps sel m1 m2 m3 cr v pa pd pn et ai
  | setNewPaymentAmount v => mkState ds ps sel m1 m2 m3 cr td v pd pn et ai
  | setNewPaymentDate v => mkState ds ps sel m1 m2 m3 cr td pa v pn et ai
  | setNewPaymentNote v => mkState ds ps sel m1 m2 m3 cr td pa pd v et ai
  | setEditingTotalAmount v => mkState ds ps sel m1 m2 m3 cr td pa pd pn v ai
  | setAiAnalysis v => mkState ds ps sel m1 m2 m3 cr td pa pd pn et v
  end.

(** The state of the next render: the queue applied in order. *)
Definition applyUpdates (us : list SetState) (s : State) : State :=
  fold_left applySet us s.

Definition setsDebts (us : list SetState) : bool :=
  existsb (fun u => match u with setDebts _ => true | _ => false end) us.
Definition setsPayments (us : list SetState) : bool :=
  existsb (fun u => match u with setPayments _ => true | _ => false end) us.

(** ** Persistence effects *)

(** [useEffect(..., [debts])] *)
Definition persistDebtsEffect (s : State) (ls : storage) : storage :=
  if (0 <? length (debts s))%nat
  then <[STORAGE_KEY_DEBTS := JDebts (debts s)]> ls
  else match stored STORAGE_KEY_DEBTS ls with
       | Some _ => <[STORAGE_KEY_DEBTS := JDebts []]> ls
       | None => ls
       end.

(** [useEffect(..., [payments, debts])] *)
Definition persistPaymentsEffect (s : State) (ls : storage) : storage :=
  if (0 <? length (payments s))%nat || (0 <? length (debts s))%nat
  then <[STORAGE_KEY_PAYMENTS := JPayments (payments s)]> ls
  else ls.

(** The effects of the commit that follows the queue [us]: each effect
    runs when one of its dependencies was set, in declaration order.
    (A setter called with an updater always stores a new array.) *)
Definition runEffects (us : list SetState) (s' : State) (ls : storage) : storage :=
  let ls1 := if setsDebts us then persistDebtsEffect s' ls else ls in
  if setsPayments us || setsDebts us then persistPaymentsEffect s' ls1 else ls1.

(** One event: the handler runs on the current render's state, the queue
    is applied, the effects of the new render run. *)
Definition dispatch (handler : State -> list SetState)
    (w : State * storage) : State * storage :=
  let us := handler (fst w) in
  let s' := applyUpdates us (fst w) in
  (s', runEffects us s' (snd w)).

(** ** Platform functions used in the examples

    Executable stand-ins for the three platform functions, used only to
    evaluate the component on concrete inputs: decimal literals for
    [parseFloat] (exact values, so an infinity only from its literal),
    date-only ISO strings for [Date], and the day, month and year of such
    a string for the display format. *)

Module Platform.

Definition is_digit (c : ascii) : bool :=
  let n := nat_of_ascii c in (48 <=? n)%nat && (n <=? 57)%nat.

Definition is_space (c : ascii) : bool :=
  let n := nat_of_ascii c in (n =? 32)%nat || ((9 <=? n)%nat && (n <=? 13)%nat).

Definition digit_val (c : ascii) : Z := Z.of_nat (nat_of_ascii c) - 48.

Definition digits_val (ds : list ascii) : Z :=
  fold_left (fun acc c => 10 * acc + digit_val c)%Z ds 0%Z.

Fixpoint span_digits (cs : list ascii) : list ascii * list ascii :=
  match cs with
  | c :: cs' =>
      if is_digit c
      then let '(ds, rest) := span_digits cs' in (c :: ds, rest)
      else ([], cs)
  | [] => ([], [])
  end.

Fixpoint skip_spaces (cs : list ascii) : list ascii :=
  match cs with
  | c :: cs' => if is_space c then skip_spaces cs' else cs
  | [] => []
  end.

Fixpoint starts_with (pre cs : list ascii) : bool :=
  match pre, cs with
  | [], _ => true
  | p :: pre', c :: cs' => if Ascii.eqb p c then starts_with pre' cs' else false
  | _ :: _, [] => false
  end.

(** the exponent part, when one follows the digits *)
Definition exponent (cs : list ascii) : Z :=
  match cs with
  | ("e" | "E")%char :: rest =>
      let '(neg, rest') :=
        match rest with
        | "-"%char :: r => (true, r)
        | "+"%char :: r => (false, r)
        | _ => (false, rest)
        end in
      match span_digits rest' with
      | ([], _) => 0%Z
      | (ds, _) => if neg then (- digits_val ds)%Z else digits_val ds
      end
  | _ => 0%Z
  end.

Definition Qpow10 (e : Z) : Q :=
  if (0 <=? e)%Z then inject_Z (10 ^ e) else 1 / inject_Z (10 ^ (- e)).

(** [parseFloat(s)]: the longest prefix of the trimmed string that is a
    decimal literal, [NaN] when there is none. *)
Definition parseFloat (s : string) : number :=
  let cs := skip_spaces (list_ascii_of_string s) in
  let '(neg, cs1) :=
    match cs with
    | "-"%char :: r => (true, r)
    | "+"%char :: r => (false, r)
    | _ => (false, cs)
    end in
  if starts_with (list_ascii_of_string "Infinity") cs1
  then (if neg then NegInf else PosInf)
  else
    let '(ip, r1) := span_digits cs1 in
    let '(fp, r2) :=
      match r1 with
      | "."%char :: r => span_digits r
      | _ => ([], r1)
      end in
    match ip ++ fp with
    | [] => NaN
    | ds =>
        let m := inject_Z (digits_val ds) in
        let e := (exponent r2 - Z.of_nat (length fp))%Z in
        let v := (m * Qpow10 e)%Q in
        Fin (Qred (if neg then - v else v))
    end.

Definition leap (y : Z) : bool :=
  ((y mod 4 =? 0) && negb (y mod 100 =? 0) || (y mod 400 =? 0))%Z.

Definition days_in_month (y m : Z) : Z :=
  if (m =? 2)%Z then (if leap y then 29 else 28)%Z
  else if ((m =? 4) || (m =? 6) || (m =? 9) || (m =? 11))%Z then 30%Z
  else 31%Z.

(** days from 1970-01-01 to the given civil date *)
Definition days_from_civil (y m d : Z) : Z :=
  let y' := (if m <=? 2 then y - 1 else y)%Z in
  let era := (y' / 400)%Z in
  let yoe := (y' - era * 400)%Z in
  let mp := ((m + 9) mod 12)%Z in
  let doy := ((153 * mp + 2) / 5 + d - 1)%Z in
  let doe := (yoe * 365 + yoe / 4 - yoe / 100 + doy)%Z in
  (era * 146097 + doe - 719468)%Z.

(** the year, month and day of a string [YYYY-MM-DD...] *)
Definition civil (s : string) : option (Z * Z * Z) :=
  match list_ascii_of_string s with
  | y1 :: y2 :: y3 :: y4 :: "-"%char :: m1 :: m2 :: "-"%char :: d1 :: d2 :: _ =>
      if forallb is_digit [y1; y2; y3; y4; m1; m2; d1; d2]
      then
        let y := digits_val [y1; y2; y3; y4] in
        let m := digits_val [m1; m2] in
        let d := digits_val [d1; d2] in
        if ((1 <=? m) && (m <=? 12) && (1 <=? d) && (d <=? days_in_month y m))%Z
        then Some (y, m, d) else None
      else None
  | _ => None
  end.

(** [new Date(s).getTime()] for a date-only string; [None] is the
    invalid date, whose time value is [NaN]. *)
Definition getTime (s : string) : option Z :=
  if (String.length s =? 10)%nat
  then match civil s with
       | Some (y, m, d) => Some (days_from_civil y m d * 86400000)%Z
       | None => None
       end
  else None.

Definition month_abbr (m : Z) : string :=
  nth (Z.to_nat (m - 1))
    ["ene"; "feb"; "mar"; "abr"; "may"; "jun";
     "jul"; "ago"; "sept"; "oct"; "nov"; "dic"] "".

(** the display form of a date: day, abbreviated month, year *)
Definition formatDate (s : string) : string :=
  match civil s with
  | Some (_, m, _) =>
      let day := match substring 8 2 s with
                 | String "0" d => d
                 | d => d
                 end in
      (day ++ " " ++ month_abbr m ++ " " ++ substring 0 4 s)%string
  | None => "Invalid Date"
  end.

End Platform.

(** ** The component *)

Section App.

Variable parseFloat : string -> number.
Variable getTime : string -> option Z.
Variable formatDate : string -> string.

(** [new Date(s).getTime()] as a number *)
Definition timeValue (s : string) : number :=
  match getTime s with
  | Some t => Num.of_Z t
  | None => NaN
  end.

(** [!s] for a string *)
Definition emptyString (s : string) : bool := String.eqb s "".

(** [!selectedDebtId] *)
Definition noSelection (sel : option string) : bool :=
  match sel with
  | Some i => emptyString i
  | None => true
  end.

(** *** Derived data for the selected debt *)

Definition selectedDebt (s : State) : option Debt.t :=
  List.find (fun d => bool_decide (Some (Debt.id d) = selectedDebtId s)) (debts s).

Definition currentDebtPayments (s : State) : list Payment.t :=
  filter (fun p => Some (Payment.debtId p) = selectedDebtId s) (payments s).

Definition totalPaid (s : State) : number :=
  fold_left (fun acc curr => (acc + Payment.amount curr)%num)
    (currentDebtPayments s) Num.zero.

Definition remainingDebt (s : State) : number :=
  match selectedDebt s with
  | Some d => Num.max Num.zero (Debt.totalAmount d - totalPaid s)%num
  | None => Num.zero
  end.

Definition progressPercentage (s : State) : number :=
  match selectedDebt s with
  | Some d =>
      Num.min Num.hundred ((totalPaid s / Debt.totalAmount d) * Num.hundred)%num
  | None => Num.zero
  end.

(** [Array.prototype.sort] with a comparator: a stable insertion sort.
    [x] goes behind [y] only when the comparator says [x] is greater; a
    comparator value of [NaN] counts as equal. *)
Fixpoint insertBy {A : Type} (cmp : A -> A -> number) (x : A) (l : list A) : list A :=
  match l with
  | [] => [x]
  | y :: l' =>
      if (Num.zero <? cmp x y)%num then y :: insertBy cmp x l' else x :: l
  end.

Fixpoint sortBy {A : Type} (cmp : A -> A -> number) (l : list A) : list A :=
  match l with
  | [] => []
  | x :: l' => insertBy cmp x (sortBy cmp l')
  end.

Definition byDate (a b : Payment.t) : number :=
  (timeValue (Payment.date a) - timeValue (Payment.date b))%num.

(** the body of [sortedPayments.forEach]: [currentBalance] and [data] are
    the two variables the loop updates *)
Fixpoint pushPoints (currentBalance : number) (ps : list Payment.t)
    (data : list ChartPoint.t) : list ChartPoint.t :=
  match ps with
  | [] => data
  | p :: ps' =>
      let currentBalance' := (currentBalance - Payment.amount p)%num in
      pushPoints currentBalance' ps'
        (data ++ [ {| ChartPoint.date := formatDate (Payment.date p);
                      ChartPoint.balance := Num.max Num.zero currentBalance';
                      ChartPoint.paid := Payment.amount p |} ])
  end.

Definition chartData (s : State) : list ChartPoint.t :=
  match selectedDebt s with
  | None => []
  | Some d =>
      let sortedPayments := sortBy byDate (currentDebtPayments s) in
      pushPoints (Debt.totalAmount d) sortedPayments
        [ {| ChartPoint.date := formatDate (Debt.startDate d);
             ChartPoint.balance := Debt.totalAmount d;
             ChartPoint.paid := Num.zero |} ]
  end.

(** *** Action handlers *)

(** [uuid] is [crypto.randomUUID()], [now] is [new Date().toISOString()]. *)
Definition handleCreateDebt (uuid now : string) (s : State) : list SetState :=
  if emptyString (newCreditor s) || emptyString (newTotalDebt s) then []
  else
    let newDebt :=
      {| Debt.id := uuid;
         Debt.creditorName := newCreditor s;
         Debt.totalAmount := parseFloat (newTotalDebt s);
         Debt.startDate := now |} in
    [ setDebts (fun prev => prev ++ [newDebt]);
      setNewCreditor "";
      setNewTotalDebt "";
      setShowAddDebtModal false ].

(** [confirmed] is the answer of [window.confirm]. *)
Definition handleDeleteDebt (confirmed : bool) (debtId : string) (s : State)
    : list SetState :=
  if confirmed
  then
    [ setDebts (fun prev => filter (fun d => Debt.id d <> debtId) prev);
      setPayments (fun prev => filter (fun p => Payment.debtId p <> debtId) prev) ]
    ++ (if bool_decide (selectedDebtId s = Some debtId)
        then [ setSelectedDebtId None ] else [])
  else [].

(** [today] is [new Date().toISOString().split("T")[0]]. *)
Definition handleAddPayment (uuid today : string) (s : State) : list SetState :=
  if emptyString (newPaymentAmount s) || noSelection (selectedDebtId s) then []
  else
    match selectedDebtId s with
    | None => []
    | Some sel =>
        let payment :=
          {| Payment.id := uuid;
             Payment.debtId := sel;
             Payment.date := newPaymentDate s;
             Payment.amount := parseFloat (newPaymentAmount s);
             Payment.note := newPaymentNote s |} in
        [ setPayments (fun prev => prev ++ [payment]);
          setNewPaymentAmount "";
          setNewPaymentNote "";
          setNewPaymentDate today;
          setShowAddPaymentModal false;
          setAiAnalysis None ]
    end.

Definition handleDeletePayment (confirmed : bool) (id : string) (s : State)
    : list SetState :=
  if confirmed
  then
    [ setPayments (fun prev => filter (fun p => Payment.id p <> id) prev);
      setAiAnalysis None ]
  else [].

Definition handleSaveTotal (s : State) : list SetState :=
  match selectedDebt s with
  | None => []
  | Some sd =>
      if emptyString (editingTotalAmount s) then []
      else
        let newTotal := parseFloat (editingTotalAmount s) in
        if Num.isNaN newTotal || (newTotal <=? Num.zero)%num then []
        else
          [ setDebts (fun prev =>
              map (fun d =>
                     if bool_decide (Debt.id d = Debt.id sd)
                     then Debt.withTotalAmount d newTotal else d) prev);
            setShowEditTotalModal false;
            setAiAnalysis None ]
  end.

(** The other events that write the state atoms above: choosing a debt
    card, leaving the detail view, typing in a form field, and the
    arrival of an advisory result. *)
Definition selectDebt (d : Debt.t) (s : State) : list SetState :=
  [ setSelectedDebtId (Some (Debt.id d)) ].

Definition backToList (s : State) : list SetState :=
  [ setSelectedDebtId None ].

Definition analysisArrived (r : AnalysisResult.t) (s : State) : list SetState :=
  [ setAiAnalysis (Some r) ].

(** *** Initialization and migration *)

(** The first effect.  It returns the queued updates and the store it
    leaves; [None] is an exception that leaves the effect (a
    current-version key that does not parse).  [uuid] is
    [crypto.randomUUID()]. *)
Definition initEffect (uuid : string) (ls : storage)
    : option (list SetState * storage) :=
  match stored STORAGE_KEY_DEBTS ls with
  | Some storedDebts =>
      ds ← parseDebts storedDebts;
      match stored STORAGE_KEY_PAYMENTS ls with
      | Some storedPayments =>
          ps ← parsePayments storedPayments;
          Some ([ setDebts (fun _ => ds); setPayments (fun _ => ps) ], ls)
      | None => Some ([ setDebts (fun _ => ds) ], ls)
      end
  | None =>
      match stored LEGACY_STORAGE_SETTINGS ls with
      | Some legacySettings =>
          (* try { ... } catch (e) { console.error(...) } *)
          let attempt : option (list SetState * storage) :=
            oldSettings ← parseSettings legacySettings;
            if Legacy.isSet oldSettings
            then
              let newId := uuid in
              let migratedDebt :=
                {| Debt.id := newId;
                   Debt.creditorName := Legacy.creditorName oldSettings;
                   Debt.totalAmount := Legacy.totalAmount oldSettings;
                   Debt.startDate := Legacy.startDate oldSettings |} in
              migratedPayments ←
                match stored LEGACY_STORAGE_PAYMENTS ls with
                | Some legacyPaymentsStr =>
                    oldPayments ← parseLegacyPayments legacyPaymentsStr;
                    Some (map (Legacy.retag newId) oldPayments)
                | None => Some []
                end;
              Some ([ setDebts (fun _ => [migratedDebt]);
                      setPayments (fun _ => migratedPayments) ],
                    <[STORAGE_KEY_PAYMENTS := JPayments migratedPayments]>
                      (<[STORAGE_KEY_DEBTS := JDebts [migratedDebt]]> ls))
            else Some ([], ls) in
          match attempt with
          | Some r => Some r
          | None => Some ([], ls)
          end
      | None => Some ([], ls)
      end
  end.

(** Mounting the component: the three effects run once on the first
    render, the later two still seeing its empty collections; then the
    updates the first effect queued are rendered and followed by their
    effects. *)
Definition mount (uuid today : string) (ls : storage) : option (State * storage) :=
  '(us, ls1) ← initEffect uuid ls;
  let s0 := initialState today in
  let ls2 := persistPaymentsEffect s0 (persistDebtsEffect s0 ls1) in
  let s1 := applyUpdates us s0 in
  Some (s1, runEffects us s1 ls2).

(** *** The figures of a card of the list view *)

Record CardFigures : Type := mkCard {
  card_paid : number;
  card_pct : number;
  card_remaining : number;
}.

(** the body of [debts.map(debt => ...)] up to the markup *)
Definition debtCard (s : State) (debt : Debt.t) : CardFigures :=
  let debtPayments :=
    filter (fun p => Payment.debtId p = Debt.id debt) (payments s) in
  let paid :=
    fold_left (fun acc p => (acc + Payment.amount p)%num) debtPayments Num.zero in
  let pct := Num.min Num.hundred ((paid / Debt.totalAmount debt) * Num.hundred)%num in
  let remaining := Num.max Num.zero (Debt.totalAmount debt - paid)%num in
  {| card_paid := paid; card_pct := pct; card_remaining := remaining |}.

End App.

(** ** Vocabulary of the specification *)

(** [paymentsFor(debtId)]: the payments of a debt, in store order *)
Definition paymentsFor (debtId : string) (ps : list Payment.t) : list Payment.t :=
  filter (fun p => Payment.debtId p = debtId) ps.

(** the sum of the amounts of a list of payments *)
Definition sumAmounts (ps : list Payment.t) : number :=
  fold_left (fun acc p => (acc + Payment.amount p)%num) ps Num.zero.

(** the total less each of the given payments in turn *)
Definition balanceAfter (total : number) (ps : list Payment.t) : number :=
  fold_left (fun b p => (b - Payment.amount p)%num) ps total.

(** the synthetic first point of a balance history *)
Definition startPoint (formatDate : string -> string) (d : Debt.t) : ChartPoint.t :=
  {| ChartPoint.date := formatDate (Debt.startDate d);
     ChartPoint.balance := Debt.totalAmount d;
     ChartPoint.paid := Num.zero |}.

(** the point of the payment [p] at position [i] of [sorted]: the total
    less the payments up to and including [p], floored at zero *)
Definition historyPoint (formatDate : string -> string) (total : number)
    (sorted : list Payment.t) (i : nat) (p : Payment.t) : ChartPoint.t :=
  {| ChartPoint.date := formatDate (Payment.date p);
     ChartPoint.balance :=
       Num.max Num.zero (balanceAfter total (take (S i) sorted));
     ChartPoint.paid := Payment.amount p |}.

(** No orphan payments. *)
Definition noOrphans (s : State) : Prop :=
  forall p, p ∈ payments s ->
    exists d, d ∈ debts s /\ Debt.id d = Payment.debtId p.

(** The selection, when there is one, is the id of a debt of the store. *)
Definition selectionValid (s : State) : Prop :=
  forall i, selectedDebtId s = Some i ->
    exists d, d ∈ debts s /\ Debt.id d = i.

(** the two together: what every state of the component satisfies once
    its collections are free of orphans *)
Definition referencesValid (s : State) : Prop :=
  noOrphans s /\ selectionValid s.

(** a debt and its image under an edit differ at most in the total *)
Definition sameButTotal (d d' : Debt.t) : Prop :=
  Debt.id d' = Debt.id d
  /\ Debt.creditorName d' = Debt.creditorName d
  /\ Debt.startDate d' = Debt.startDate d.

(** each value is at most the one before it, under JavaScript's [<=] *)
Definition nonIncreasing (l : list number) : Prop :=
  forall i x y, l !! i = Some x -> l !! S i = Some y -> (y <=? x)%num = true.

(** ascending by time value *)
Definition ascendingByDate (getTime : string -> option Z) (l : list Payment.t) : Prop :=
  StronglySorted
    (fun a b => (timeValue getTime (Payment.date a)
                 <=? timeValue getTime (Payment.date b))%num = true) l.

(** payments of equal date come in the order they have in [ps] *)
Definition tiesInOrderOf (getTime : string -> option Z) (ps l : list Payment.t) : Prop :=
  forall t : option Z,
    filter (fun p => getTime (Payment.date p) = t) l
    = filter (fun p => getTime (Payment.date p) = t) ps.

(** a handler completes when it queues its updates; it returns early with
    an empty queue *)
Definition completes (us : list SetState) : Prop := us <> [].

(** ** Example data *)

Module Ex.

Definition ana : Debt.t :=
  {| Debt.id := "d1"; Debt.creditorName := "Ana";
     Debt.totalAmount := Num.of_Z 1000; Debt.startDate := "2024-01-01T09:00:00.000Z" |}.

Definition luis : Debt.t :=
  {| Debt.id := "d2"; Debt.creditorName := "Luis";
     Debt.totalAmount := Num.of_Z 250; Debt.startDate := "2024-03-05T18:30:00.000Z" |}.

Definition pay (id debtId date : string) (amount : Z) : Payment.t :=
  {| Payment.id := id; Payment.debtId := debtId; Payment.date := date;
     Payment.amount := Num.of_Z amount; Payment.note := "" |}.

Definition p1 : Payment.t := pay "p1" "d1" "2024-03-10" 200.
Definition p2 : Payment.t := pay "p2" "d1" "2024-02-01" 300.
Definition p3 : Payment.t := pay "p3" "d2" "2024-03-20" 50.
Definition p4 : Payment.t := pay "p4" "d1" "2024-02-01" 600.

Definition advice : AnalysisResult.t :=
  {| AnalysisResult.message := "Vas por buen camino.";
     AnalysisResult.estimatedCompletion := None;
     AnalysisResult.tone := positive_tone |}.

(** the list view with two debts and their payments *)
Definition listView : State :=
  {| debts := [ana; luis]; payments := [p1; p2; p3]; selectedDebtId := None;
     showAddDebtModal := false; showAddPaymentModal := false;
     showEditTotalModal := false;
     newCreditor := ""; newTotalDebt := "";
     newPaymentAmount := ""; newPaymentDate := "2024-04-01"; newPaymentNote := "";
     editingTotalAmount := ""; aiAnalysis := None |}.

(** the detail view of the first debt *)
Definition detailView : State := applySet listView (setSelectedDebtId (Some "d1")).

(** the detail view, an advisory result on display *)
Definition advised : State := applySet detailView (setAiAnalysis (Some advice)).

(** forms as the user may have filled them *)
Definition withDebtForm (creditor total : string) (s : State) : State :=
  applySet (applySet s (setNewCreditor creditor)) (setNewTotalDebt total).

Definition withPaymentForm (amount : string) (s : State) : State :=
  applySet s (setNewPaymentAmount amount).

Definition withTotalForm (total : string) (s : State) : State :=
  applySet s (setEditingTotalAmount total).

(** a store in step with a state *)
Definition storeOf (s : State) : storage :=
  <[STORAGE_KEY_PAYMENTS := JPayments (payments s)]>
    (<[STORAGE_KEY_DEBTS := JDebts (debts s)]> ∅).

(** one debt with one payment, on the list view *)
Definition lastDebt : State :=
  applySet (applySet listView (setDebts (fun _ => [ana])))
    (setPayments (fun _ => [p1])).

(** the store of the previous layout in the migration example *)
Definition legacySettings : Legacy.settings :=
  {| Legacy.isSet := true; Legacy.creditorName := "Ana";
     Legacy.totalAmount := Num.of_Z 500; Legacy.startDate := "2024-01-01" |}.

Definition legacyPayment : Legacy.payment :=
  {| Legacy.id := "p1"; Legacy.date := "2024-02-01";
     Legacy.amount := Num.of_Z 100; Legacy.note := "" |}.

Definition legacyStore : storage :=
  <[LEGACY_STORAGE_PAYMENTS := JLegacyPayments [legacyPayment]]>
    (<[LEGACY_STORAGE_SETTINGS := JSettings legacySettings]> ∅).

End Ex.

(** ** The rest of the component

    The views the component chooses between, the payments it lists on
    the exported ticket, the handler that opens the edit form, the
    advisory service and the handler that calls it.  The text of a
    number ([toString]), the answer of the language model and the parse
    of that answer are further parameters. *)

Inductive View : Type := EmptyState | ListView | DetailView.

(** the three [return]s of the render function *)
Definition currentView (s : State) : View :=
  if (length (debts s) =? 0)%nat then EmptyState
  else if noSelection (selectedDebtId s) then ListView
  else DetailView.

(** [currentDebtPayments.slice().reverse()]: the rows of the history *)
Definition historyRows (s : State) : list Payment.t :=
  rev (currentDebtPayments s).

Section Ticket.

Variable getTime : string -> option Z.

(** the comparator of the ticket: later dates first *)
Definition byDateDesc (a b : Payment.t) : number :=
  (timeValue getTime (Payment.date b) - timeValue getTime (Payment.date a))%num.

(** [[...currentDebtPayments].sort(...).slice(0, 5)]: the rows of the
    ticket *)
Definition ticketRows (s : State) : list Payment.t :=
  take 5 (sortBy byDateDesc (currentDebtPayments s)).

(** the count of the line "... y N más ...", shown when there are more
    than five payments *)
Definition ticketMore (s : State) : option nat :=
  if (5 <? length (currentDebtPayments s))%nat
  then Some (length (currentDebtPayments s) - 5)%nat
  else None.

End Ticket.

Section EditForm.

Variable toString : number -> string.

Definition handleOpenEditTotal (s : State) : list SetState :=
  match selectedDebt s with
  | Some sd =>
      [ setEditingTotalAmount (toString (Debt.totalAmount sd));
        setShowEditTotalModal true ]
  | None => []
  end.

End EditForm.

(** *** The advisory service *)

(** The values the prompt of the service interpolates. *)
Record PromptData : Type := mkPrompt {
  prompt_creditor : string;
  prompt_total : number;
  prompt_paid : number;
  prompt_remaining : number;
  prompt_percentage : number;
  prompt_count : nat;
  prompt_recent : list Payment.t;
}.

Definition promptData (debt : Debt.t) (payments : list Payment.t) : PromptData :=
  let totalPaid :=
    fold_left (fun acc p => (acc + Payment.amount p)%num) payments Num.zero in
  let remaining := (Debt.totalAmount debt - totalPaid)%num in
  let percentage := ((totalPaid / Debt.totalAmount debt) * Num.hundred)%num in
  {| prompt_creditor := Debt.creditorName debt;
     prompt_total := Debt.totalAmount debt;
     prompt_paid := totalPaid;
     prompt_remaining := remaining;
     prompt_percentage := percentage;
     prompt_count := length payments;
     prompt_recent := take 5 payments |}.

Definition notConfigured : AnalysisResult.t :=
  {| AnalysisResult.message :=
       "Configura tu API Key para obtener consejos inteligentes.";
     AnalysisResult.estimatedCompletion := None;
     AnalysisResult.tone := neutral_tone |}.

Definition analysisFailed : AnalysisResult.t :=
  {| AnalysisResult.message :=
       "No se pudo generar el análisis en este momento.";
     AnalysisResult.estimatedCompletion := None;
     AnalysisResult.tone := neutral_tone |}.

Section Service.

(** [process.env.API_KEY || ""] *)
Variable apiKey : string.
(** [ai.models.generateContent(...)] and the [text] of its response:
    [None] when the call throws, [Some None] when the response has no
    text. *)
Variable generateContent : PromptData -> option (option string).
(** [JSON.parse(text) as AnalysisResult]; [None] when it throws *)
Variable parseResult : string -> option AnalysisResult.t.

(** the result the promise resolves to *)
Definition analyzeDebtProgress (debt : Debt.t) (payments : list Payment.t)
    : AnalysisResult.t :=
  if emptyString apiKey then notConfigured
  else
    (* try { ... } catch (error) { ... } *)
    let attempt : option AnalysisResult.t :=
      response ← generateContent (promptData debt payments);
      text ← (match response with
              | Some text => if emptyString text then None else Some text
              | None => None
              end);
      parseResult text in
    match attempt with
    | Some result => result
    | None => analysisFailed
    end.

(** [handleGetAnalysis] up to its [await]: nothing without a selected
    debt; otherwise [loadingAi] is set and the service is called on the
    debt and the payments of this render.  The second component of the
    pair is [loadingAi]. *)
Definition handleGetAnalysis_call (w : State * bool)
    : option AnalysisResult.t * (State * bool) :=
  match selectedDebt (fst w) with
  | None => (None, w)
  | Some sd =>
      (Some (analyzeDebtProgress sd (currentDebtPayments (fst w))),
       (fst w, true))
  end.

(** [handleGetAnalysis] after its [await], on the state of that later
    moment: the result is cached and [loadingAi] is reset. *)
Definition handleGetAnalysis_resume (result : AnalysisResult.t) (w : State * bool)
    : State * bool :=
  (applyUpdates [ setAiAnalysis (Some result) ] (fst w), false).

End Service.

(** ** Forms and events

    The three handlers that read a form are bound to the [submit] event
    of that form, which the browser fires only when every field passes
    its constraint validation.  The other handlers are bound to clicks
    on what the views render. *)

(** [min="0.01"], which with [step="0.01"] is also the base of the steps *)
Definition minAmount : number := Fin (1 # 100).

(** a whole number of hundredths *)
Definition wholeHundredths (x : number) : bool :=
  match x with
  | Fin q => (Zpos (Qden (Qred (q * inject_Z 100))) =? 1)%Z
  | _ => false
  end.

(** [required] on a text or date field *)
Definition requiredFieldValid (v : string) : bool := negb (emptyString v).

Section Forms.

Variable parseFloat : string -> number.

(** The constraint validation of an amount field,
    [<input type="number" step="0.01" min="0.01" required>]: the value
    is not missing, is a number, is not below the minimum and is on a
    step from it.  (The value of such a field is the empty string or a
    decimal literal, on which [parseFloat] is the number the browser
    validates.) *)
Definition amountFieldValid (v : string) : bool :=
  negb (emptyString v)
  && Num.isFinite (parseFloat v)
  && (minAmount <=? parseFloat v)%num
  && wholeHundredths (parseFloat v).

(** [<form onSubmit={handleCreateDebt}>]: the creditor field and the
    amount field are both [required] *)
Definition submitCreateDebt (uuid now : string) (s : State) : list SetState :=
  if requiredFieldValid (newCreditor s) && amountFieldValid (newTotalDebt s)
  then handleCreateDebt parseFloat uuid now s
  else [].

(** [<form onSubmit={handleAddPayment}>]: the amount field and the date
    field are [required], the note is not *)
Definition submitAddPayment (uuid today : string) (s : State) : list SetState :=
  if amountFieldValid (newPaymentAmount s) && requiredFieldValid (newPaymentDate s)
  then handleAddPayment parseFloat uuid today s
  else [].

(** [<form onSubmit={handleSaveTotal}>] *)
Definition submitSaveTotal (s : State) : list SetState :=
  if amountFieldValid (editingTotalAmount s)
  then handleSaveTotal parseFloat s
  else [].

(** What the user or the environment can do to a mounted component. *)
Inductive Event : Type :=
  | SubmitCreateDebt (uuid now : string)
  | ClickDeleteDebt (d : Debt.t) (confirmed : bool)
  | SubmitAddPayment (uuid today : string)
  | ClickDeletePayment (p : Payment.t) (confirmed : bool)
  | SubmitSaveTotal
  | ClickDebt (d : Debt.t)
  | ClickBack
  | EditForm (u : SetState)
  | AnalysisArrives (r : AnalysisResult.t)
  | CloseAnalysis.

(** the setters behind the form fields and the modal buttons (opening
    the edit form is two of them) *)
Definition isFormUpdate (u : SetState) : bool :=
  match u with
  | setDebts _ | setPayments _ | setSelectedDebtId _ | setAiAnalysis _ => false
  | _ => true
  end.

(** An event is offered when the element it comes from is rendered: a
    card for each debt, a row for each payment of the selected debt.
    (Which view or modal is open is not taken into account, so more is
    offered here than on the screen.) *)
Definition offered (e : Event) (s : State) : Prop :=
  match e with
  | ClickDeleteDebt d _ | ClickDebt d => d ∈ debts s
  | ClickDeletePayment p _ => p ∈ currentDebtPayments s
  | EditForm u => isFormUpdate u = true
  | _ => True
  end.

Definition eventUpdates (e : Event) (s : State) : list SetState :=
  match e with
  | SubmitCreateDebt uuid now => submitCreateDebt uuid now s
  | ClickDeleteDebt d confirmed => handleDeleteDebt confirmed (Debt.id d) s
  | SubmitAddPayment uuid today => submitAddPayment uuid today s
  | ClickDeletePayment p confirmed => handleDeletePayment confirmed (Payment.id p) s
  | SubmitSaveTotal => submitSaveTotal s
  | ClickDebt d => selectDebt d s
  | ClickBack => backToList s
  | EditForm u => [u]
  | AnalysisArrives r => analysisArrived r s
  | CloseAnalysis => [ setAiAnalysis None ]
  end.

(** The states of the component: what a mount leaves, and what an
    offered event leads to from such a state. *)
Inductive reachable : State -> Prop :=
  | reachable_mount (uuid today : string) (ls ls' : storage) (s : State) :
      mount uuid today ls = Some (s, ls') -> reachable s
  | reachable_event (e : Event) (s : State) :
      reachable s -> offered e s ->
      reachable (applyUpdates (eventUpdates e s) s).

End Forms.

(** ** Further vocabulary *)

(** the text under the debts key is the debts of the state *)
Definition debtsInStep (s : State) (ls : storage) : Prop :=
  ls !! STORAGE_KEY_DEBTS = Some (JDebts (debts s)).

(** the text under the payments key is the payments of the state *)
Definition paymentsInStep (s : State) (ls : storage) : Prop :=
  ls !! STORAGE_KEY_PAYMENTS = Some (JPayments (payments s)).

(** no two debts share an id and no two payments share an id *)
Definition idsUnique (s : State) : Prop :=
  NoDup (map Debt.id (debts s)) /\ NoDup (map Payment.id (payments s)).

(** every total and every amount of the state is finite, so that the
    JSON text of the collections holds them as they are (a number that
    is not finite is written as [null]) *)
Definition storable (s : State) : Prop :=
  Forall (fun d => Num.isFinite (Debt.totalAmount d) = true) (debts s)
  /\ Forall (fun p => Num.isFinite (Payment.amount p) = true) (payments s).

(** descending by time value *)
Definition descendingByDate (getTime : string -> option Z) (l : list Payment.t) : Prop :=
  StronglySorted
    (fun a b => (timeValue getTime (Payment.date b)
                 <=? timeValue getTime (Payment.date a))%num = true) l.

(** the legacy data cannot be migrated: no settings, settings that do
    not parse or are not marked as set, or payments that do not parse *)
Definition legacyUnusable (ls : storage) : Prop :=
  stored LEGACY_STORAGE_SETTINGS ls = None
  \/ (exists b, stored LEGACY_STORAGE_SETTINGS ls = Some b
                /\ (parseSettings b = None
                    \/ (exists old, parseSettings b = Some old
                                    /\ (Legacy.isSet old = false
                                        \/ exists b',
                                             stored LEGACY_STORAGE_PAYMENTS ls = Some b'
                                             /\ parseLegacyPayments b' = None)))).

(** ** Further example data *)

Module Printing.

(** the decimals of [r / d], at most [fuel] of them *)
Fixpoint decimals (fuel : nat) (r d : Z) : string :=
  match fuel with
  | O => ""
  | S fuel' =>
      if (r =? 0)%Z then ""
      else String (ascii_of_nat (48 + Z.to_nat (r * 10 / d)))
                  (decimals fuel' ((r * 10) mod d) d)
  end.

(** A stand-in for [Number.prototype.toString], used in the examples:
    the decimal text of a finite value, cut after twenty decimals. *)
Definition toString (x : number) : string :=
  match x with
  | NaN => "NaN"
  | PosInf => "Infinity"
  | NegInf => "-Infinity"
  | Fin q =>
      let n := Z.abs (Qnum q) in
      let d := Zpos (Qden q) in
      let whole := NilZero.string_of_uint (N.to_uint (Z.to_N (n / d))) in
      let frac := decimals 20 (n mod d) d in
      ((if (Qnum q <? 0)%Z then "-" else "")
       ++ whole ++ (if String.eqb frac "" then "" else "." ++ frac))%string
  end.

End Printing.

Module Ex2.

(** seven payments of the first example debt, added in this order *)
Definition seven : list Payment.t :=
  [ Ex.pay "q1" "d1" "2024-01-10" 10; Ex.pay "q2" "d1" "2024-03-01" 20;
    Ex.pay "q3" "d1" "2024-02-01" 30; Ex.pay "q4" "d1" "2024-03-01" 40;
    Ex.pay "q5" "d1" "2024-01-05" 50; Ex.pay "q6" "d1" "2024-04-01" 60;
    Ex.pay "q7" "d1" "2024-02-15" 70 ].

Definition busy : State :=
  applySet Ex.detailView (setPayments (fun _ => seven)).

(** a language model that answers with one fixed text, and a parser
    that knows that text *)
Definition answer : AnalysisResult.t :=
  {| AnalysisResult.message := "Buen ritmo de pagos.";
     AnalysisResult.estimatedCompletion := Some "2025";
     AnalysisResult.tone := positive_tone |}.

Definition model (p : PromptData) : option (option string) := Some (Some "ok").

Definition parser (text : string) : option AnalysisResult.t :=
  if String.eqb text "ok" then Some answer else None.

(** the first example debt overpaid: 200, 300 and 600 against 1000 *)
Definition overpaid : State :=
  applySet Ex.detailView (setPayments (fun _ => [Ex.p1; Ex.p2; Ex.p4])).

(** the payment form with an amount and without a date *)
Definition noDate : State :=
  applySet (Ex.withPaymentForm "50" Ex.detailView) (setNewPaymentDate "").

(** the state a mount leaves on the store of the two example debts, and
    the state after a click on the card of the first *)
Definition mounted : State :=
  applyUpdates [ setDebts (fun _ => [Ex.ana; Ex.luis]);
                 setPayments (fun _ => [Ex.p1; Ex.p2; Ex.p3]) ]
    (initialState "2024-04-01").

Definition chosen : State :=
  applyUpdates (eventUpdates Platform.parseFloat (ClickDebt Ex.ana) mounted) mounted.

(** a store whose legacy settings do not parse *)
Definition brokenStore : storage :=
  <[LEGACY_STORAGE_SETTINGS := JOther "{isSet:"]> ∅.

End Ex2.

(** ** Facts about numbers *)

Module NumFacts.

Lemma Qle_bool_false (a b : Q) : Qle_bool a b = false -> (b < a)%Q.
Proof.
  intros H. apply Qnot_le_lt. intros Hle.
  apply Qle_bool_iff in Hle. congruence.
Qed.

(** turn every rational test of the context and goal into its proposition *)
Ltac q_props :=
  unfold Num.Qlt_bool, Num.Qpos_bool in *;
  repeat match goal with
    | H : negb _ = true |- _ => apply negb_true_iff in H
    | H : negb _ = false |- _ => apply negb_false_iff in H
    | H : Qle_bool _ _ = true |- _ => apply Qle_bool_iff in H
    | H : Qle_bool _ _ = false |- _ => apply Qle_bool_false in H
    | H : Qeq_bool _ _ = true |- _ => apply Qeq_bool_iff in H
    | H : Qeq_bool _ _ = false |- _ => apply Qeq_bool_neq in H
    | |- negb _ = true => apply negb_true_iff
    | |- Qle_bool _ _ = true => apply Qle_bool_iff
    | |- Qle_bool _ _ = false => apply not_true_is_false; intros ?
    end;
  repeat match goal with
    | H : context [Qred ?q] |- _ => rewrite (Qred_correct q) in H
    | |- context [Qred ?q] => rewrite (Qred_correct q)
    end.

Ltac q_cases :=
  repeat match goal with
    | |- context [if Qle_bool ?a ?b then _ else _] =>
        let E := fresh "E" in destruct (Qle_bool a b) eqn:E; simpl
    | |- context [if negb (Qle_bool ?a ?b) then _ else _] =>
        let E := fresh "E" in destruct (Qle_bool a b) eqn:E; simpl
    | |- context [if Qeq_bool ?a ?b then _ else _] =>
        let E := fresh "E" in destruct (Qeq_bool a b) eqn:E; simpl
    end.

Ltac num_crush :=
  simpl in *; unfold Num.ltb, Num.leb, Num.Qlt_bool, Num.zero, Num.hundred,
    Num.of_Z in *; simpl in *;
  q_cases; try discriminate; try reflexivity; q_props;
  unfold inject_Z in *; try (simpl in *; lra).

Lemma leb_trans (x y z : number) :
  (x <=? y)%num = true -> (y <=? z)%num = true -> (x <=? z)%num = true.
Proof. destruct x, y, z; intros; try discriminate; try reflexivity; num_crush. Qed.

(** [Math.max(0, x)] is not below zero unless it is [NaN]. *)
Lemma max_zero_nonneg (x : number) :
  Num.isNaN x = false -> (Num.zero <=? Num.max Num.zero x)%num = true.
Proof.
  destruct x; intros; try discriminate; unfold Num.max; num_crush.
Qed.

(** [Math.min(100, x)] is not above 100 unless it is [NaN]. *)
Lemma min_hundred_le (x : number) :
  Num.isNaN x = false -> (Num.min Num.hundred x <=? Num.hundred)%num = true.
Proof.
  destruct x; intros; try discriminate; unfold Num.min; num_crush.
Qed.

Lemma max_zero_mono (x y : number) :
  (x <=? y)%num = true ->
  (Num.max Num.zero x <=? Num.max Num.zero y)%num = true.
Proof.
  destruct x, y; intros; try discriminate; unfold Num.max; num_crush.
Qed.

Lemma max_zero_le_bound (x t : number) :
  Num.isFinite t = true -> (Num.zero <=? t)%num = true ->
  (x <=? t)%num = true ->
  (Num.max Num.zero x <=? t)%num = true.
Proof.
  destruct x, t; intros; try discriminate; unfold Num.max; num_crush.
Qed.

Lemma add_finite (x y : number) :
  Num.isFinite x = true -> Num.isFinite y = true -> Num.isFinite (x + y) = true.
Proof. destruct x, y; intros; try discriminate; reflexivity. Qed.

Lemma sub_finite (x y : number) :
  Num.isFinite x = true -> Num.isFinite y = true -> Num.isFinite (x - y) = true.
Proof. destruct x, y; intros; try discriminate; reflexivity. Qed.

Lemma mul_finite (x y : number) :
  Num.isFinite x = true -> Num.isFinite y = true -> Num.isFinite (x * y) = true.
Proof. destruct x, y; intros; try discriminate; reflexivity. Qed.

Lemma div_finite (x y : number) :
  Num.isFinite x = true -> Num.positive y -> Num.isFinite (x / y) = true.
Proof.
  intros Hx [Hy Hpos]. destruct x, y; try discriminate. simpl.
  destruct (Qeq_bool q0 0) eqn:E; [| reflexivity].
  exfalso. num_crush.
Qed.

Lemma finite_not_NaN (x : number) : Num.isFinite x = true -> Num.isNaN x = false.
Proof. destruct x; intros; try discriminate; reflexivity. Qed.

Lemma finite_bounded_above (x : number) :
  Num.isFinite x = true -> Num.bounded_above x = true.
Proof. destruct x; intros; try discriminate; reflexivity. Qed.

(** Taking off an amount above zero does not raise a balance. *)
Lemma sub_pos_le (c a : number) :
  Num.bounded_above c = true -> (Num.zero <? a)%num = true ->
  Num.bounded_above (c - a) = true /\ (c - a <=? c)%num = true.
Proof.
  destruct c, a; intros; try discriminate; split; try reflexivity; num_crush.
Qed.

End NumFacts.

(** ** Derived figures *)

Lemma selectedDebt_Some (s : State) (d : Debt.t) :
  selectedDebt s = Some d ->
  d ∈ debts s /\ selectedDebtId s = Some (Debt.id d).
Proof.
  unfold selectedDebt. intros H.
  apply find_some in H as [Hin Hid].
  apply bool_decide_eq_true in Hid.
  split; [by apply list_elem_of_In | done].
Qed.

Lemma currentDebtPayments_paymentsFor (s : State) (d : Debt.t) :
  selectedDebt s = Some d ->
  currentDebtPayments s = paymentsFor (Debt.id d) (payments s).
Proof.
  intros H. apply selectedDebt_Some in H as [_ Hsel].
  unfold currentDebtPayments, paymentsFor.
  apply list_filter_iff. intros p. rewrite Hsel.
  split; [by intros [= ->] | by intros ->].
Qed.

Lemma sum_finite (ps : list Payment.t) (acc : number) :
  Num.isFinite acc = true ->
  Forall (fun p => Num.isFinite (Payment.amount p) = true) ps ->
  Num.isFinite (fold_left (fun a p => (a + Payment.amount p)%num) ps acc) = true.
Proof.
  intros Hacc Hps. revert acc Hacc.
  induction Hps as [| p ps Hp _ IH]; intros acc Hacc; simpl; [done |].
  apply IH. by apply NumFacts.add_finite.
Qed.

Lemma figures_bounded (total : number) (ps : list Payment.t) :
  Num.positive total ->
  Forall (fun p => Num.isFinite (Payment.amount p) = true) ps ->
  (Num.zero <=? Num.max Num.zero (total - sumAmounts ps))%num = true
  /\ (Num.min Num.hundred ((sumAmounts ps / total) * Num.hundred)
      <=? Num.hundred)%num = true.
Proof.
  intros Hpos Hps.
  assert (Hsum : Num.isFinite (sumAmounts ps) = true)
    by (by apply sum_finite).
  split.
  - apply NumFacts.max_zero_nonneg, NumFacts.finite_not_NaN,
      NumFacts.sub_finite; [apply Hpos | done].
  - apply NumFacts.min_hundred_le, NumFacts.finite_not_NaN,
      NumFacts.mul_finite; [| done].
    by apply NumFacts.div_finite.
Qed.

(** C1. The figures derived for the selected debt and the figures of each
    card of the list view are the floored remainder
    [max(0, totalAmount - paid)] and the capped percentage
    [min(100, paid / totalAmount * 100)], where [paid] is the sum of the
    amounts of the payments whose [debtId] is the debt's id.  Under the
    invariants of the data model (a positive finite [totalAmount], finite
    amounts) the remainder is not below zero and the percentage is not
    above 100, whatever the payments add up to. *)
Theorem derived_figures (s : State) (d : Debt.t) :
  let paid := sumAmounts (paymentsFor (Debt.id d) (payments s)) in
  let remaining := Num.max Num.zero (Debt.totalAmount d - paid)%num in
  let pct := Num.min Num.hundred ((paid / Debt.totalAmount d) * Num.hundred)%num in
  (selectedDebt s = Some d ->
     totalPaid s = paid
     /\ remainingDebt s = remaining
     /\ progressPercentage s = pct)
  /\ debtCard s d
     = {| card_paid := paid; card_pct := pct; card_remaining := remaining |}
  /\ (Num.positive (Debt.totalAmount d) ->
      Forall (fun p => Num.isFinite (Payment.amount p) = true)
        (paymentsFor (Debt.id d) (payments s)) ->
      (Num.zero <=? remaining)%num = true
      /\ (pct <=? Num.hundred)%num = true).
Proof.
  intros paid remaining pct. split; [| split].
  - intros Hsel.
    assert (Hpaid : totalPaid s = paid).
    { unfold totalPaid. by rewrite (currentDebtPayments_paymentsFor s d). }
    unfold remainingDebt, progressPercentage. rewrite Hsel, Hpaid. done.
  - reflexivity.
  - intros Hpos Hfin. by apply figures_bounded.
Qed.

(** ** The balance history *)

Section Sorting.

Context {A : Type} (cmp : A -> A -> number).

Lemma insertBy_perm (x : A) (l : list A) : insertBy cmp x l ≡ₚ x :: l.
Proof.
  induction l as [| y l IH]; cbn [insertBy sortBy]; [reflexivity |].
  destruct (Num.zero <? cmp x y)%num; [| reflexivity].
  rewrite IH. apply Permutation_swap.
Qed.

Lemma sortBy_perm (l : list A) : sortBy cmp l ≡ₚ l.
Proof.
  induction l as [| x l IH]; cbn [insertBy sortBy]; [reflexivity |].
  rewrite insertBy_perm, IH. reflexivity.
Qed.

(** An element passes only elements of another key, so the elements of
    one key keep their order. *)
Section Stable.

Context {K : Type} `{EqDecision K} (key : A -> K).
Hypothesis passes_other_key :
  forall x y, (Num.zero <? cmp x y)%num = true -> key x <> key y.

Lemma insertBy_ties (t : K) (x : A) (l : list A) :
  filter (fun a => key a = t) (insertBy cmp x l)
  = filter (fun a => key a = t) (x :: l).
Proof.
  induction l as [| y l IH]; cbn [insertBy sortBy]; [done |].
  destruct (Num.zero <? cmp x y)%num eqn:E; [| done].
  apply passes_other_key in E.
  rewrite (filter_cons _ y), IH, !(filter_cons _ x), (filter_cons _ y).
  repeat case_decide; congruence.
Qed.

Lemma sortBy_ties (t : K) (l : list A) :
  filter (fun a => key a = t) (sortBy cmp l) = filter (fun a => key a = t) l.
Proof.
  induction l as [| x l IH]; cbn [insertBy sortBy]; [done |].
  rewrite insertBy_ties, !(filter_cons _ x), IH. done.
Qed.

End Stable.

(** On a domain where the comparator decides a transitive order, the
    result is in that order. *)
Section Sorted.

Variable dom : A -> Prop.
Variable R : A -> A -> Prop.
Hypothesis R_trans : forall x y z, R x y -> R y z -> R x z.
Hypothesis greater : forall x y,
  dom x -> dom y -> (Num.zero <? cmp x y)%num = true -> R y x.
Hypothesis not_greater : forall x y,
  dom x -> dom y -> (Num.zero <? cmp x y)%num = false -> R x y.

Lemma insertBy_sorted (x : A) (l : list A) :
  dom x -> Forall dom l -> StronglySorted R l ->
  StronglySorted R (insertBy cmp x l).
Proof.
  intros Hx Hdom Hs. induction Hs as [| y l Hs IH Hy]; cbn [insertBy sortBy].
  - repeat constructor.
  - apply Forall_cons in Hdom as [Hdy Hdl].
    destruct (Num.zero <? cmp x y)%num eqn:E.
    + constructor; [by apply IH |].
      rewrite insertBy_perm. constructor; [by apply greater | done].
    + assert (Hxy : R x y) by (by apply not_greater).
      constructor; [by constructor |].
      constructor; [done |].
      eapply Forall_impl; [exact Hy |]. intros z Hz. by eapply R_trans.
Qed.

Lemma sortBy_sorted (l : list A) :
  Forall dom l -> StronglySorted R (sortBy cmp l).
Proof.
  induction 1 as [| x l Hx Hl IH]; cbn [insertBy sortBy]; [constructor |].
  apply insertBy_sorted; [done | by rewrite sortBy_perm | done].
Qed.

End Sorted.

End Sorting.

Lemma nonIncreasing_singleton (x : number) : nonIncreasing [x].
Proof. intros [| i] a b Ha Hb; simpl in *; discriminate. Qed.

Lemma nonIncreasing_cons (x y : number) (l : list number) :
  (y <=? x)%num = true -> nonIncreasing (y :: l) -> nonIncreasing (x :: y :: l).
Proof.
  intros Hyx Hl [| i] a b Ha Hb; simpl in *.
  - by simplify_eq.
  - by apply (Hl i).
Qed.

Section History.

Variable getTime : string -> option Z.
Variable formatDate : string -> string.

Lemma byDate_greater_other_date (a b : Payment.t) :
  (Num.zero <? byDate getTime a b)%num = true ->
  getTime (Payment.date a) <> getTime (Payment.date b).
Proof.
  unfold byDate, timeValue. intros H Heq. rewrite Heq in H.
  destruct (getTime (Payment.date b)); NumFacts.num_crush.
Qed.

Lemma sortedPayments_ascending (ps : list Payment.t) :
  Forall (fun p => is_Some (getTime (Payment.date p))) ps ->
  ascendingByDate getTime (sortBy (byDate getTime) ps).
Proof.
  apply (sortBy_sorted (byDate getTime)
           (fun p => is_Some (getTime (Payment.date p)))).
  - intros x y z. apply NumFacts.leb_trans.
  - intros x y [tx Hx] [ty Hy]. unfold byDate, timeValue. rewrite Hx, Hy.
    intros H. NumFacts.num_crush.
  - intros x y [tx Hx] [ty Hy]. unfold byDate, timeValue. rewrite Hx, Hy.
    intros H. NumFacts.num_crush.
Qed.

Lemma pushPoints_app (ps : list Payment.t) (cb : number) (data : list ChartPoint.t) :
  pushPoints formatDate cb ps data = data ++ pushPoints formatDate cb ps [].
Proof.
  revert cb data. induction ps as [| p ps IH]; intros cb data; simpl.
  - by rewrite app_nil_r.
  - rewrite IH, (IH _ [_]). by rewrite app_assoc.
Qed.

Lemma pushPoints_imap (ps : list Payment.t) (cb : number) :
  pushPoints formatDate cb ps [] = imap (historyPoint formatDate cb ps) ps.
Proof.
  revert cb. induction ps as [| p ps IH]; intros cb; [done |].
  rewrite imap_cons. cbn [pushPoints app].
  rewrite pushPoints_app, IH. done.
Qed.

Lemma pushPoints_nonIncreasing (ps : list Payment.t) (cb bound : number) :
  Num.bounded_above cb = true ->
  (forall x, (x <=? cb)%num = true -> (Num.max Num.zero x <=? bound)%num = true) ->
  Forall (fun p => (Num.zero <? Payment.amount p)%num = true) ps ->
  nonIncreasing (bound :: map ChartPoint.balance (pushPoints formatDate cb ps [])).
Proof.
  intros Hcb Hbound Hps. revert cb bound Hcb Hbound.
  induction Hps as [| p ps Hp _ IH]; intros cb bound Hcb Hbound.
  - apply nonIncreasing_singleton.
  - cbn [pushPoints app]. rewrite pushPoints_app. cbn [map app ChartPoint.balance].
    destruct (NumFacts.sub_pos_le cb (Payment.amount p) Hcb Hp) as [Hcb' Hle].
    apply nonIncreasing_cons; [by apply Hbound |].
    apply IH; [done |]. intros x Hx. by apply NumFacts.max_zero_mono.
Qed.


End History.

(** ** What each handler leaves behind *)

Lemma emptyString_true (x : string) : emptyString x = true <-> x = "".
Proof. apply String.eqb_eq. Qed.

Lemma emptyString_false (x : string) : emptyString x = false <-> x <> "".
Proof. apply String.eqb_neq. Qed.

Section Handlers.

Variable parseFloat : string -> number.

(** the state after a handler's queue *)
Local Abbreviation after us s := (applyUpdates us s).

Lemma createDebt_after (uuid now : string) (s : State) :
  let us := handleCreateDebt parseFloat uuid now s in
  (us = [] /\ (newCreditor s = "" \/ newTotalDebt s = ""))
  \/ (us <> []
      /\ newCreditor s <> "" /\ newTotalDebt s <> ""
      /\ debts (after us s)
         = debts s ++ [ {| Debt.id := uuid;
                           Debt.creditorName := newCreditor s;
                           Debt.totalAmount := parseFloat (newTotalDebt s);
                           Debt.startDate := now |} ]
      /\ payments (after us s) = payments s
      /\ selectedDebtId (after us s) = selectedDebtId s
      /\ aiAnalysis (after us s) = aiAnalysis s).
Proof.
  unfold handleCreateDebt.
  destruct (emptyString (newCreditor s)) eqn:E1; cbn [orb].
  { left. apply emptyString_true in E1. auto. }
  destruct (emptyString (newTotalDebt s)) eqn:E2.
  { left. apply emptyString_true in E2. auto. }
  right. apply emptyString_false in E1, E2. destruct s; done.
Qed.

Lemma deleteDebt_after (debtId : string) (s : State) :
  let us := handleDeleteDebt true debtId s in
  us <> []
  /\ debts (after us s) = filter (fun d => Debt.id d <> debtId) (debts s)
  /\ payments (after us s)
     = filter (fun p => Payment.debtId p <> debtId) (payments s)
  /\ selectedDebtId (after us s)
     = (if bool_decide (selectedDebtId s = Some debtId)
        then None else selectedDebtId s)
  /\ aiAnalysis (after us s) = aiAnalysis s.
Proof.
  destruct s; unfold handleDeleteDebt; cbn.
  destruct (bool_decide (selectedDebtId0 = Some debtId)); done.
Qed.

Lemma addPayment_after (uuid today : string) (s : State) :
  let us := handleAddPayment parseFloat uuid today s in
  (us = []
   /\ (newPaymentAmount s = "" \/ selectedDebtId s = None
       \/ selectedDebtId s = Some ""))
  \/ (exists sel,
        us <> []
        /\ selectedDebtId s = Some sel /\ sel <> "" /\ newPaymentAmount s <> ""
        /\ payments (after us s)
           = payments s ++ [ {| Payment.id := uuid;
                                Payment.debtId := sel;
                                Payment.date := newPaymentDate s;
                                Payment.amount := parseFloat (newPaymentAmount s);
                                Payment.note := newPaymentNote s |} ]
        /\ debts (after us s) = debts s
        /\ selectedDebtId (after us s) = selectedDebtId s
        /\ aiAnalysis (after us s) = None).
Proof.
  unfold handleAddPayment.
  destruct (emptyString (newPaymentAmount s)) eqn:E1; cbn [orb].
  { left. apply emptyString_true in E1. auto. }
  destruct (selectedDebtId s) as [sel |] eqn:Hsel; cbn [noSelection]; [| left; auto].
  destruct (emptyString sel) eqn:E2.
  { left. apply emptyString_true in E2. subst. auto. }
  right. exists sel. apply emptyString_false in E1, E2.
  destruct s; cbn in *. done.
Qed.

Lemma deletePayment_after (id : string) (s : State) :
  let us := handleDeletePayment true id s in
  us <> []
  /\ payments (after us s) = filter (fun p => Payment.id p <> id) (payments s)
  /\ debts (after us s) = debts s
  /\ selectedDebtId (after us s) = selectedDebtId s
  /\ aiAnalysis (after us s) = None.
Proof. destruct s; done. Qed.

Lemma saveTotal_after (s : State) :
  let us := handleSaveTotal parseFloat s in
  let newTotal := parseFloat (editingTotalAmount s) in
  (us = []
   /\ (selectedDebt s = None \/ editingTotalAmount s = ""
       \/ Num.isNaN newTotal = true \/ (newTotal <=? Num.zero)%num = true))
  \/ (exists sd,
        us <> []
        /\ selectedDebt s = Some sd /\ editingTotalAmount s <> ""
        /\ Num.isNaN newTotal = false /\ (newTotal <=? Num.zero)%num = false
        /\ debts (after us s)
           = map (fun d => if bool_decide (Debt.id d = Debt.id sd)
                           then Debt.withTotalAmount d newTotal else d) (debts s)
        /\ payments (after us s) = payments s
        /\ selectedDebtId (after us s) = selectedDebtId s
        /\ aiAnalysis (after us s) = None).
Proof.
  unfold handleSaveTotal.
  destruct (selectedDebt s) as [sd |] eqn:Hsd; [| left; auto].
  destruct (emptyString (editingTotalAmount s)) eqn:E1.
  { left. apply emptyString_true in E1. auto. }
  destruct (Num.isNaN (parseFloat (editingTotalAmount s))) eqn:E2; cbn.
  { left. auto. }
  destruct (parseFloat (editingTotalAmount s) <=? Num.zero)%num eqn:E3; cbn.
  { left. auto 6. }
  right. exists sd. apply emptyString_false in E1.
  destruct s; cbn in *. done.
Qed.

Lemma cancelled_after (s : State) :
  (forall debtId, handleDeleteDebt false debtId s = [])
  /\ (forall id, handleDeletePayment false id s = []).
Proof. done. Qed.

End Handlers.

(** ** References between payments, debts and the selection *)

Section References.

Variable parseFloat : string -> number.

Local Abbreviation after us s := (applyUpdates us s).

Lemma referencesValid_initial (today : string) : referencesValid (initialState today).
Proof.
  split.
  - intros p Hp. cbn in Hp. by apply elem_of_nil in Hp.
  - intros i Hi. discriminate.
Qed.

Lemma referencesValid_createDebt (uuid now : string) (s : State) :
  referencesValid s ->
  referencesValid (after (handleCreateDebt parseFloat uuid now s) s).
Proof.
  intros [Hno Hsel].
  destruct (createDebt_after parseFloat uuid now s)
    as [[-> _] | (_ & _ & _ & Hd & Hp & Hs & _)]; [done |].
  split.
  - intros p. rewrite Hp, Hd. intros Hin.
    destruct (Hno p Hin) as (d & Hdin & Hid).
    exists d. split; [| done]. apply elem_of_app. by left.
  - intros i. rewrite Hs, Hd. intros Hi.
    destruct (Hsel i Hi) as (d & Hdin & Hid).
    exists d. split; [| done]. apply elem_of_app. by left.
Qed.

Lemma referencesValid_deleteDebt (confirmed : bool) (debtId : string) (s : State) :
  referencesValid s ->
  referencesValid (after (handleDeleteDebt confirmed debtId s) s).
Proof.
  intros [Hno Hsel]. destruct confirmed; [| done].
  destruct (deleteDebt_after debtId s) as (_ & Hd & Hp & Hs & _).
  split.
  - intros p. rewrite Hp, Hd. intros [Hne Hin]%list_elem_of_filter.
    destruct (Hno p Hin) as (d & Hdin & Hid).
    exists d. split; [| done]. apply list_elem_of_filter. split; [congruence | done].
  - intros i. rewrite Hs, Hd. case_bool_decide as Hdec; [done |]. intros Hi.
    destruct (Hsel i Hi) as (d & Hdin & Hid).
    exists d. split; [| done]. apply list_elem_of_filter. split; [congruence | done].
Qed.

Lemma referencesValid_addPayment (uuid today : string) (s : State) :
  referencesValid s ->
  referencesValid (after (handleAddPayment parseFloat uuid today s) s).
Proof.
  intros [Hno Hsel].
  destruct (addPayment_after parseFloat uuid today s)
    as [[-> _] | (sel & _ & Hsome & _ & _ & Hp & Hd & Hs & _)]; [done |].
  split.
  - intros p. rewrite Hp, Hd. intros [Hin | Hnew]%elem_of_app.
    + by apply Hno.
    + apply list_elem_of_singleton in Hnew as ->. cbn. by apply Hsel.
  - intros i. rewrite Hs, Hd. apply Hsel.
Qed.

Lemma referencesValid_deletePayment (confirmed : bool) (id : string) (s : State) :
  referencesValid s ->
  referencesValid (after (handleDeletePayment confirmed id s) s).
Proof.
  intros [Hno Hsel]. destruct confirmed; [| done].
  destruct (deletePayment_after id s) as (_ & Hp & Hd & Hs & _).
  split.
  - intros p. rewrite Hp, Hd. intros [_ Hin]%list_elem_of_filter. by apply Hno.
  - intros i. rewrite Hs, Hd. apply Hsel.
Qed.

Lemma edited_debt_present (f : Debt.t -> Debt.t) (ds : list Debt.t) (d : Debt.t) :
  (forall x, Debt.id (f x) = Debt.id x) ->
  d ∈ ds -> exists d', d' ∈ map f ds /\ Debt.id d' = Debt.id d.
Proof.
  intros Hf Hin. exists (f d). split; [| apply Hf].
  apply list_elem_of_In, in_map. by apply list_elem_of_In.
Qed.

Lemma referencesValid_saveTotal (s : State) :
  referencesValid s ->
  referencesValid (after (handleSaveTotal parseFloat s) s).
Proof.
  intros [Hno Hsel].
  destruct (saveTotal_after parseFloat s)
    as [[-> _] | (sd & _ & _ & _ & _ & _ & Hd & Hp & Hs & _)]; [done |].
  assert (Hid : forall x,
    Debt.id (if bool_decide (Debt.id x = Debt.id sd)
             then Debt.withTotalAmount x (parseFloat (editingTotalAmount s))
             else x) = Debt.id x)
    by (intros x; by case_bool_decide).
  split.
  - intros p. rewrite Hp, Hd. intros Hin.
    destruct (Hno p Hin) as (d & Hdin & Hdid).
    destruct (edited_debt_present _ _ d Hid Hdin) as (d' & Hd' & Hid').
    exists d'. split; [done | congruence].
  - intros i. rewrite Hs, Hd. intros Hi.
    destruct (Hsel i Hi) as (d & Hdin & Hdid).
    destruct (edited_debt_present _ _ d Hid Hdin) as (d' & Hd' & Hid').
    exists d'. split; [done | congruence].
Qed.

Lemma referencesValid_navigation (s : State) :
  referencesValid s ->
  (forall d, d ∈ debts s -> referencesValid (after (selectDebt d s) s))
  /\ referencesValid (after (backToList s) s)
  /\ (forall r, referencesValid (after (analysisArrived r s) s)).
Proof.
  intros [Hno Hsel]. destruct s; cbn in *. repeat split; try done.
  intros i [= <-]. by exists d.
Qed.

(** The cascade: no debt of the deleted id and no payment of it is left. *)
Lemma deleteDebt_cascade (debtId : string) (s : State) :
  let s' := after (handleDeleteDebt true debtId s) s in
  (forall d, d ∈ debts s' -> Debt.id d <> debtId)
  /\ (forall p, p ∈ payments s' -> Payment.debtId p <> debtId).
Proof.
  destruct (deleteDebt_after debtId s) as (_ & Hd & Hp & _).
  cbn zeta. rewrite Hd, Hp.
  split; intros x [Hne _]%list_elem_of_filter; done.
Qed.

(** The component starts without a selection, whatever the store holds. *)
Lemma mount_no_selection (uuid today : string) (ls ls' : storage) (s' : State) :
  mount uuid today ls = Some (s', ls') -> selectedDebtId s' = None.
Proof.
  unfold mount, initEffect. intros H.
  repeat (case_match; simplify_option_eq); reflexivity.
Qed.

(** From a state without orphan payments whose selection, if any, is the
    id of a debt of the store, each of the five command handlers leads to
    a state of the same kind, whatever the environment answers; so do
    choosing a debt of the store, going back to the list and the arrival
    of an advisory result, and the first render is such a state. *)
Lemma handlers_keep_references (s : State) :
  noOrphans s -> selectionValid s ->
  (forall uuid now,
      referencesValid (after (handleCreateDebt parseFloat uuid now s) s))
  /\ (forall confirmed debtId,
      referencesValid (after (handleDeleteDebt confirmed debtId s) s))
  /\ (forall uuid today,
      referencesValid (after (handleAddPayment parseFloat uuid today s) s))
  /\ (forall confirmed id,
      referencesValid (after (handleDeletePayment confirmed id s) s))
  /\ referencesValid (after (handleSaveTotal parseFloat s) s)
  /\ (forall d, d ∈ debts s -> referencesValid (after (selectDebt d s) s))
  /\ referencesValid (after (backToList s) s)
  /\ (forall r, referencesValid (after (analysisArrived r s) s))
  /\ (forall today, referencesValid (initialState today))
  /\ (forall debtId,
      let s' := after (handleDeleteDebt true debtId s) s in
      (forall d, d ∈ debts s' -> Debt.id d <> debtId)
      /\ (forall p, p ∈ payments s' -> Payment.debtId p <> debtId)).
Proof.
  intros Hno Hsel. assert (Hinv : referencesValid s) by done.
  destruct (referencesValid_navigation s Hinv) as (Hselect & Hback & Harrived).
  split_and!.
  - intros. by apply referencesValid_createDebt.
  - intros. by apply referencesValid_deleteDebt.
  - intros. by apply referencesValid_addPayment.
  - intros. by apply referencesValid_deletePayment.
  - by apply referencesValid_saveTotal.
  - exact Hselect.
  - exact Hback.
  - exact Harrived.
  - apply referencesValid_initial.
  - intros debtId. apply deleteDebt_cascade.
Qed.

End References.

(** ** Deletion, editing the total, and the advisory cache *)

Lemma filter_all {A : Type} (P : A -> Prop) `{!forall x, Decision (P x)} (l : list A) :
  (forall x, x ∈ l -> P x) -> filter P l = l.
Proof.
  induction l as [| y l IH]; intros Hall; [done |].
  rewrite filter_cons_True by (apply Hall; apply elem_of_cons; by left).
  f_equal. apply IH. intros x Hx. apply Hall. apply elem_of_cons. by right.
Qed.

Lemma map_sameButTotal (f : Debt.t -> Debt.t) (ds : list Debt.t) :
  (forall d, sameButTotal d (f d)) -> Forall2 sameButTotal ds (map f ds).
Proof. intros Hf. induction ds; constructor; auto. Qed.

Lemma sameButTotal_refl (ds : list Debt.t) : Forall2 sameButTotal ds ds.
Proof. induction ds; constructor; [done | auto]. Qed.

Lemma lookup_map_Some {A B : Type} (f : A -> B) (l : list A) (i : nat) (y : B) :
  map f l !! i = Some y -> exists x, l !! i = Some x /\ y = f x.
Proof.
  revert i. induction l as [| a l IH]; intros [| i] H; try discriminate.
  - exists a. by simplify_eq/=.
  - by apply IH.
Qed.

Section Contracts.

Variable parseFloat : string -> number.

Local Abbreviation after us s := (applyUpdates us s).

(** C10. Deletion is framed.  A confirmed deletion of a debt leaves the
    debts of another id and the payments of another [debtId], each list
    being the old one with the matching entries taken out, so in the old
    order; a confirmed deletion of a payment leaves the debts as they
    were and the payments of another id likewise, and changes nothing
    when no payment has that id.  A deletion that is not confirmed
    changes nothing. *)
Theorem deletion_frame (s : State) :
  (forall debtId,
     let s' := after (handleDeleteDebt true debtId s) s in
     debts s' = filter (fun d => Debt.id d <> debtId) (debts s)
     /\ payments s' = filter (fun p => Payment.debtId p <> debtId) (payments s)
     /\ (forall d, d ∈ debts s -> Debt.id d <> debtId -> d ∈ debts s')
     /\ (forall p, p ∈ payments s -> Payment.debtId p <> debtId -> p ∈ payments s')
     /\ debts s' `sublist_of` debts s
     /\ payments s' `sublist_of` payments s)
  /\ (forall id,
     let s' := after (handleDeletePayment true id s) s in
     debts s' = debts s
     /\ payments s' = filter (fun p => Payment.id p <> id) (payments s)
     /\ (forall p, p ∈ payments s -> Payment.id p <> id -> p ∈ payments s')
     /\ payments s' `sublist_of` payments s
     /\ ((forall p, p ∈ payments s -> Payment.id p <> id) ->
         payments s' = payments s))
  /\ (forall debtId, after (handleDeleteDebt false debtId s) s = s)
  /\ (forall id, after (handleDeletePayment false id s) s = s).
Proof.
  split_and!; try done.
  - intros debtId. destruct (deleteDebt_after debtId s) as (_ & Hd & Hp & _).
    cbn zeta. rewrite Hd, Hp. split_and!; try done.
    + intros d Hin Hne. by apply list_elem_of_filter.
    + intros p Hin Hne. by apply list_elem_of_filter.
    + apply sublist_filter.
    + apply sublist_filter.
  - intros id. destruct (deletePayment_after id s) as (_ & Hp & Hd & _).
    cbn zeta. rewrite Hd, Hp. split_and!; try done.
    + intros p Hin Hne. by apply list_elem_of_filter.
    + apply sublist_filter.
    + intros Hall. by apply filter_all.
Qed.

(** The handler that saves an edited total never touches the payments
    and leaves the id, the creditor name and the start date of every
    debt as they were.  It returns early, the debts staying as they were,
    when no debt is selected, when the input is empty, and when the
    parsed total is [NaN] or not above zero.  Otherwise the debts with
    the selected debt's id get the parsed total and the other debts stay
    as they were. *)
Lemma saveTotal_contract (s : State) :
  let newTotal := parseFloat (editingTotalAmount s) in
  let s' := after (handleSaveTotal parseFloat s) s in
  payments s' = payments s
  /\ Forall2 sameButTotal (debts s) (debts s')
  /\ (selectedDebt s = None \/ editingTotalAmount s = ""
      \/ Num.isNaN newTotal = true \/ (newTotal <=? Num.zero)%num = true ->
      debts s' = debts s)
  /\ (forall sd,
      selectedDebt s = Some sd -> editingTotalAmount s <> "" ->
      Num.isNaN newTotal = false -> (newTotal <=? Num.zero)%num = false ->
      debts s'
      = map (fun d => if bool_decide (Debt.id d = Debt.id sd)
                      then Debt.withTotalAmount d newTotal else d) (debts s)
      /\ (forall i d', debts s' !! i = Some d' ->
          exists d, debts s !! i = Some d
            /\ (Debt.id d <> Debt.id sd -> d' = d)
            /\ (Debt.id d = Debt.id sd -> Debt.totalAmount d' = newTotal))).
Proof.
  intros newTotal s'. subst s'.
  destruct (saveTotal_after parseFloat s)
    as [[Hus Hwhy] | (sd & _ & Hsd & Hne & Hnan & Hle & Hd & Hp & _)].
  - rewrite Hus. cbn [applyUpdates fold_left]. split_and!; try done.
    + apply sameButTotal_refl.
    + intros sd Hsd Hne Hnan Hle. exfalso.
      destruct Hwhy as [H | [H | [H | H]]]; subst newTotal; congruence.
  - rewrite Hd, Hp. split_and!; try done.
    + apply map_sameButTotal. intros d. by case_bool_decide.
    + intros [H | [H | [H | H]]]; subst newTotal; congruence.
    + intros sd' Hsd' _ _ _. assert (sd' = sd) as -> by congruence.
      split; [done |]. intros i d' Hi.
      apply lookup_map_Some in Hi as (d & Hdi & ->).
      exists d. split; [done |]. by case_bool_decide.
Qed.

(** C9 (as amended).  The advisory cache is emptied by the three
    handlers that change the figures of the selected debt, when they
    complete: adding a payment, deleting a payment, saving a total.
    Creating a debt and deleting a debt leave it as it was. *)
Theorem analysis_cache (s : State) :
  (forall uuid today,
     completes (handleAddPayment parseFloat uuid today s) ->
     aiAnalysis (after (handleAddPayment parseFloat uuid today s) s) = None)
  /\ (forall id,
     aiAnalysis (after (handleDeletePayment true id s) s) = None)
  /\ (completes (handleSaveTotal parseFloat s) ->
     aiAnalysis (after (handleSaveTotal parseFloat s) s) = None)
  /\ (forall uuid now,
     aiAnalysis (after (handleCreateDebt parseFloat uuid now s) s) = aiAnalysis s)
  /\ (forall confirmed debtId,
     aiAnalysis (after (handleDeleteDebt confirmed debtId s) s) = aiAnalysis s).
Proof.
  unfold completes. split_and!.
  - intros uuid today Hc.
    destruct (addPayment_after parseFloat uuid today s)
      as [[Hus _] | (sel & _ & _ & _ & _ & _ & _ & _ & Hai)]; [done | exact Hai].
  - intros id. by destruct (deletePayment_after id s) as (_ & _ & _ & _ & Hai).
  - intros Hc.
    destruct (saveTotal_after parseFloat s)
      as [[Hus _] | (sd & _ & _ & _ & _ & _ & _ & _ & _ & Hai)]; [done | exact Hai].
  - intros uuid now.
    destruct (createDebt_after parseFloat uuid now s)
      as [[-> _] | (_ & _ & _ & _ & _ & _ & Hai)]; [done | exact Hai].
  - intros [] debtId; [| done].
    by destruct (deleteDebt_after debtId s) as (_ & _ & _ & _ & Hai).
Qed.

End Contracts.

(** ** Migration *)

Lemma storage_keys_distinct : STORAGE_KEY_DEBTS <> STORAGE_KEY_PAYMENTS.
Proof. discriminate. Qed.

Lemma stored_insert_eq (k : string) (b : blob) (ls : storage) :
  blob_truthy b = true -> stored k (<[k := b]> ls) = Some b.
Proof. intros Hb. unfold stored. by rewrite lookup_insert_eq, Hb. Qed.

Lemma stored_insert_ne (k k' : string) (b : blob) (ls : storage) :
  k <> k' -> stored k' (<[k := b]> ls) = stored k' ls.
Proof. intros Hk. unfold stored. by rewrite lookup_insert_ne. Qed.

(** the debt and the payments the migration builds *)
Local Abbreviation migratedDebt uuid old :=
  {| Debt.id := uuid;
     Debt.creditorName := Legacy.creditorName old;
     Debt.totalAmount := Legacy.totalAmount old;
     Debt.startDate := Legacy.startDate old |}.

Lemma initEffect_migrates (uuid : string) (ls : storage)
    (b : blob) (old : Legacy.settings) (olds : list Legacy.payment) :
  stored STORAGE_KEY_DEBTS ls = None ->
  stored LEGACY_STORAGE_SETTINGS ls = Some b ->
  parseSettings b = Some old ->
  Legacy.isSet old = true ->
  (stored LEGACY_STORAGE_PAYMENTS ls = None /\ olds = []
   \/ exists b', stored LEGACY_STORAGE_PAYMENTS ls = Some b'
                 /\ parseLegacyPayments b' = Some olds) ->
  initEffect uuid ls
  = Some ([ setDebts (fun _ => [migratedDebt uuid old]);
            setPayments (fun _ => map (Legacy.retag uuid) olds) ],
          <[STORAGE_KEY_PAYMENTS := JPayments (map (Legacy.retag uuid) olds)]>
            (<[STORAGE_KEY_DEBTS := JDebts [migratedDebt uuid old]]> ls)).
Proof.
  intros Hnone Hset Hparse Hisset Hpays. unfold initEffect.
  rewrite Hnone, Hset, Hparse. cbn [mbind option_bind]. rewrite Hisset.
  destruct Hpays as [[-> ->] | (b' & -> & ->)]; reflexivity.
Qed.

Lemma mount_migrates (uuid today : string) (ls : storage)
    (b : blob) (old : Legacy.settings) (olds : list Legacy.payment) :
  stored STORAGE_KEY_DEBTS ls = None ->
  stored LEGACY_STORAGE_SETTINGS ls = Some b ->
  parseSettings b = Some old ->
  Legacy.isSet old = true ->
  (stored LEGACY_STORAGE_PAYMENTS ls = None /\ olds = []
   \/ exists b', stored LEGACY_STORAGE_PAYMENTS ls = Some b'
                 /\ parseLegacyPayments b' = Some olds) ->
  exists s' ls',
    mount uuid today ls = Some (s', ls')
    /\ debts s' = [migratedDebt uuid old]
    /\ payments s' = map (Legacy.retag uuid) olds
    /\ ls' !! STORAGE_KEY_DEBTS = Some (JDebts [migratedDebt uuid old])
    /\ ls' !! STORAGE_KEY_PAYMENTS
       = Some (JPayments (map (Legacy.retag uuid) olds))
    /\ (forall k, k <> STORAGE_KEY_DEBTS -> k <> STORAGE_KEY_PAYMENTS ->
        ls' !! k = ls !! k).
Proof.
  intros Hnone Hset Hparse Hisset Hpays. unfold mount.
  rewrite (initEffect_migrates uuid ls b old olds) by done.
  cbn [mbind option_bind]. eexists _, _. split; [reflexivity |].
  pose proof storage_keys_distinct as Hkeys.
  unfold runEffects, persistDebtsEffect, persistPaymentsEffect.
  cbn [applyUpdates fold_left applySet initialState debts payments length
       setsDebts setsPayments existsb orb Nat.ltb Nat.leb].
  rewrite stored_insert_ne, stored_insert_eq by done.
  rewrite orb_true_r. split_and!; try done.
  - by rewrite lookup_insert_ne, lookup_insert_eq.
  - by rewrite lookup_insert_eq.
  - intros k Hk1 Hk2. by rewrite !lookup_insert_ne.
Qed.

(** C4. Migration.  When the store holds no debts under the current key,
    the legacy settings parse and are marked as set, and the legacy
    payments are absent or parse, the first effect queues exactly one
    debt, with a fresh id and the creditor name, total and start date of
    the legacy settings, and the legacy payments, each with the debt's
    id as [debtId] and its id, date, amount and note as they were; it
    writes both collections under the current keys at once.  When the
    component has mounted, the state holds that debt and those payments,
    the current keys hold them, and every other key of the store, the
    legacy keys among them, holds what it held.  For the legacy settings
    (set, Ana, 500, 2024-01-01) and the one legacy payment of 100 the
    result is one debt (Ana, 500) and one payment of 100 with the debt's
    id. *)
Theorem migration (uuid today : string) :
  (forall (ls : storage) (b : blob) (old : Legacy.settings)
          (olds : list Legacy.payment),
     stored STORAGE_KEY_DEBTS ls = None ->
     stored LEGACY_STORAGE_SETTINGS ls = Some b ->
     parseSettings b = Some old ->
     Legacy.isSet old = true ->
     (stored LEGACY_STORAGE_PAYMENTS ls = None /\ olds = []
      \/ exists b', stored LEGACY_STORAGE_PAYMENTS ls = Some b'
                    /\ parseLegacyPayments b' = Some olds) ->
     let d := migratedDebt uuid old in
     let ps := map (Legacy.retag uuid) olds in
     initEffect uuid ls
     = Some ([ setDebts (fun _ => [d]); setPayments (fun _ => ps) ],
             <[STORAGE_KEY_PAYMENTS := JPayments ps]>
               (<[STORAGE_KEY_DEBTS := JDebts [d]]> ls))
     /\ Forall2 (fun o p =>
                   Payment.debtId p = uuid
                   /\ Payment.id p = Legacy.id o
                   /\ Payment.date p = Legacy.date o
                   /\ Payment.amount p = Legacy.amount o
                   /\ Payment.note p = Legacy.note o) olds ps
     /\ exists s' ls',
          mount uuid today ls = Some (s', ls')
          /\ debts s' = [d]
          /\ payments s' = ps
          /\ ls' !! STORAGE_KEY_DEBTS = Some (JDebts [d])
          /\ ls' !! STORAGE_KEY_PAYMENTS = Some (JPayments ps)
          /\ (forall k, k <> STORAGE_KEY_DEBTS -> k <> STORAGE_KEY_PAYMENTS ->
              ls' !! k = ls !! k))
  /\ (exists s' ls',
        mount uuid today Ex.legacyStore = Some (s', ls')
        /\ debts s'
           = [ {| Debt.id := uuid; Debt.creditorName := "Ana";
                  Debt.totalAmount := Num.of_Z 500;
                  Debt.startDate := "2024-01-01" |} ]
        /\ payments s'
           = [ {| Payment.id := "p1"; Payment.debtId := uuid;
                  Payment.date := "2024-02-01";
                  Payment.amount := Num.of_Z 100; Payment.note := "" |} ]
        /\ ls' !! LEGACY_STORAGE_SETTINGS = Some (JSettings Ex.legacySettings)
        /\ ls' !! LEGACY_STORAGE_PAYMENTS
           = Some (JLegacyPayments [Ex.legacyPayment])).
Proof.
  split.
  - intros ls b old olds Hnone Hset Hparse Hisset Hpays d ps.
    split; [by eapply initEffect_migrates |]. split.
    + subst ps. clear. induction olds; constructor; [done | auto].
    + by eapply mount_migrates.
  - destruct (mount_migrates uuid today Ex.legacyStore
                (JSettings Ex.legacySettings) Ex.legacySettings [Ex.legacyPayment])
      as (s' & ls' & Hm & Hd & Hp & _ & _ & Hframe); try done.
    { right. by exists (JLegacyPayments [Ex.legacyPayment]). }
    exists s', ls'. split_and!; try done.
    + by rewrite Hframe.
    + by rewrite Hframe.
Qed.

(** ** Persistence after a deletion of a debt *)

Lemma dispatch_deleteDebt_effects (debtId : string) (s : State) (ls : storage) :
  let s' := applyUpdates (handleDeleteDebt true debtId s) s in
  dispatch (handleDeleteDebt true debtId) (s, ls)
  = (s', persistPaymentsEffect s' (persistDebtsEffect s' ls)).
Proof.
  unfold dispatch, runEffects, handleDeleteDebt. cbn [fst snd].
  by destruct (bool_decide (selectedDebtId s = Some debtId)).
Qed.

(** What the two effects leave in the store when both have run: the
    debts key is in step as soon as there are debts or the key was there;
    the payments key is in step when there are payments or debts, and is
    not written when there are neither. *)
Lemma persist_effects_store (s' : State) (ls : storage) :
  let ls' := persistPaymentsEffect s' (persistDebtsEffect s' ls) in
  (debts s' <> [] \/ is_Some (stored STORAGE_KEY_DEBTS ls) ->
   ls' !! STORAGE_KEY_DEBTS = Some (JDebts (debts s')))
  /\ (payments s' <> [] \/ debts s' <> [] ->
      ls' !! STORAGE_KEY_PAYMENTS = Some (JPayments (payments s')))
  /\ (payments s' = [] -> debts s' = [] ->
      ls' !! STORAGE_KEY_PAYMENTS = ls !! STORAGE_KEY_PAYMENTS).
Proof.
  pose proof storage_keys_distinct as Hkeys.
  unfold persistPaymentsEffect, persistDebtsEffect. cbn zeta.
  destruct (debts s') as [| d ds], (payments s') as [| p ps];
    cbn [length Nat.ltb Nat.leb orb]; split_and!; try done.
  - intros [[] | [b Hb]]; [done |]. rewrite Hb. apply lookup_insert_eq.
  - intros [[] | []]; done.
  - intros _ _. destruct (stored STORAGE_KEY_DEBTS ls); [| done].
    by apply lookup_insert_ne.
  - intros [[] | [b Hb]]; [done |]. rewrite Hb.
    rewrite lookup_insert_ne by done. apply lookup_insert_eq.
  - intros _. apply lookup_insert_eq.
  - intros _. rewrite lookup_insert_ne by done. apply lookup_insert_eq.
  - intros _. apply lookup_insert_eq.
  - intros _. rewrite lookup_insert_ne by done. apply lookup_insert_eq.
  - intros _. apply lookup_insert_eq.
Qed.

(** ** The handlers on concrete inputs *)

(** The scenario of the specification: a total of 1000 with payments of
    200 and 300, then a further payment of 600. *)
Example overpayment_scenario :
  let s := Ex.detailView in
  let filled := Ex.withPaymentForm "600" s in
  let s' := applyUpdates
              (handleAddPayment Platform.parseFloat "p9" "2024-04-01" filled) filled in
  (totalPaid s, remainingDebt s, progressPercentage s)
  = (Num.of_Z 500, Num.of_Z 500, Num.of_Z 50)
  /\ (totalPaid s', remainingDebt s', progressPercentage s')
     = (Num.of_Z 1100, Num.of_Z 0, Num.of_Z 100).
Proof. split; reflexivity. Qed.

(** The bounds at the detail view of the first example debt. *)
Lemma derived_figures_witness :
  (Num.zero <=? remainingDebt Ex.detailView)%num = true
  /\ (progressPercentage Ex.detailView <=? Num.hundred)%num = true.
Proof.
  destruct (derived_figures Ex.detailView Ex.ana) as (Hsel & _ & Hbounds).
  destruct (Hsel eq_refl) as (_ & Hrem & Hpct). rewrite Hrem, Hpct.
  apply Hbounds.
  - split; reflexivity.
  - repeat constructor.
Defined.


Lemma detailView_noOrphans : noOrphans Ex.detailView.
Proof.
  intros p Hp. apply list_elem_of_In in Hp. cbn in Hp.
  destruct Hp as [<- | [<- | [<- | []]]];
    [exists Ex.ana | exists Ex.ana | exists Ex.luis];
    (split; [| reflexivity]); apply list_elem_of_In; cbn; auto.
Qed.

Lemma detailView_selectionValid : selectionValid Ex.detailView.
Proof.
  intros i [= <-]. exists Ex.ana. split; [| reflexivity].
  apply list_elem_of_In; cbn; auto.
Qed.

(** The migration of the example store of the previous layout. *)
Lemma migration_witness :
  exists s' ls',
    mount "d-new" "2024-04-01" Ex.legacyStore = Some (s', ls')
    /\ length (debts s') = 1%nat
    /\ ls' !! LEGACY_STORAGE_SETTINGS = Ex.legacyStore !! LEGACY_STORAGE_SETTINGS.
Proof.
  destruct (proj1 (migration "d-new" "2024-04-01") Ex.legacyStore
              (JSettings Ex.legacySettings) Ex.legacySettings [Ex.legacyPayment]
              eq_refl eq_refl eq_refl eq_refl
              (or_intror (ex_intro _ (JLegacyPayments [Ex.legacyPayment])
                            (conj eq_refl eq_refl))))
    as (_ & _ & s' & ls' & Hm & Hd & _ & _ & _ & Hframe).
  exists s', ls'. split; [exact Hm |]. split.
  - rewrite Hd. reflexivity.
  - apply Hframe; discriminate.
Defined.

(** C8: after the last debt is deleted the payments key keeps the
    payments that went with it.  From a state with one debt and its one
    payment, in step with the store, a confirmed deletion of the debt
    empties both collections and writes the empty debts, but the
    payments key still holds the payment; the next start loads it as a
    payment without a debt. *)
Theorem stale_payments_after_last_debt :
  let w := dispatch (handleDeleteDebt true "d1") (Ex.lastDebt, Ex.storeOf Ex.lastDebt) in
  debts (fst w) = [] /\ payments (fst w) = []
  /\ snd w !! STORAGE_KEY_DEBTS = Some (JDebts [])
  /\ snd w !! STORAGE_KEY_PAYMENTS = Some (JPayments [Ex.p1])
  /\ exists s' ls',
       mount "d9" "2024-04-02" (snd w) = Some (s', ls')
       /\ debts s' = [] /\ payments s' = [Ex.p1] /\ ~ noOrphans s'.
Proof.
  cbn zeta. split_and!; try reflexivity.
  eexists _, _. split; [reflexivity |]. split_and!; try reflexivity.
  intros Hno. destruct (Hno Ex.p1) as (d & Hd & _).
  - apply list_elem_of_In. left. reflexivity.
  - cbn in Hd. by apply elem_of_nil in Hd.
Qed.

(** C9, as stated, fails: creating a debt completes and the advisory
    result stays cached; so does deleting a debt. *)
Lemma createDebt_keeps_analysis :
  let s := Ex.withDebtForm "Eva" "80" Ex.advised in
  let us := handleCreateDebt Platform.parseFloat "d9" "2024-04-01T10:00:00.000Z" s in
  completes us
  /\ length (debts (applyUpdates us s)) = 3%nat
  /\ aiAnalysis (applyUpdates us s) = Some Ex.advice
  /\ aiAnalysis (applyUpdates (handleDeleteDebt true "d2" Ex.advised) Ex.advised)
     = Some Ex.advice.
Proof. split_and!; [discriminate | reflexivity | reflexivity | reflexivity]. Qed.

(** Adding a payment and saving a total empty the cache. *)
Lemma analysis_cache_witness :
  aiAnalysis
    (applyUpdates
       (handleAddPayment Platform.parseFloat "p9" "2024-04-02"
          (Ex.withPaymentForm "50" Ex.advised))
       (Ex.withPaymentForm "50" Ex.advised)) = None
  /\ aiAnalysis
       (applyUpdates
          (handleSaveTotal Platform.parseFloat (Ex.withTotalForm "1200" Ex.advised))
          (Ex.withTotalForm "1200" Ex.advised)) = None.
Proof.
  split.
  - apply (analysis_cache Platform.parseFloat (Ex.withPaymentForm "50" Ex.advised)).
    discriminate.
  - apply (analysis_cache Platform.parseFloat (Ex.withTotalForm "1200" Ex.advised)).
    discriminate.
Defined.

(** Deleting a payment that is not there, and the payments of the other
    debt when a debt is deleted. *)
Lemma deletion_frame_witness :
  payments (applyUpdates (handleDeletePayment true "p0" Ex.listView) Ex.listView)
  = payments Ex.listView
  /\ Ex.p3 ∈ payments (applyUpdates (handleDeleteDebt true "d1" Ex.listView) Ex.listView).
Proof.
  destruct (deletion_frame Ex.listView) as (Hdebt & Hpay & _).
  split.
  - apply Hpay. intros p Hp. apply list_elem_of_In in Hp. cbn in Hp.
    destruct Hp as [<- | [<- | [<- | []]]]; discriminate.
  - apply Hdebt; [| discriminate].
    apply list_elem_of_In. cbn. auto.
Defined.

(** ** The store across events and restarts *)

Lemma applyUpdates_debts (us : list SetState) (s : State) :
  setsDebts us = false -> debts (applyUpdates us s) = debts s.
Proof.
  revert s. induction us as [| u us IH]; intros s Hus; [done |].
  cbn in Hus. apply orb_false_iff in Hus as [Hu Hus].
  cbn [applyUpdates fold_left]. change (debts (applyUpdates us (applySet s u)) = debts s).
  rewrite IH by done. destruct u, s; try done.
Qed.

Lemma applyUpdates_payments (us : list SetState) (s : State) :
  setsPayments us = false -> payments (applyUpdates us s) = payments s.
Proof.
  revert s. induction us as [| u us IH]; intros s Hus; [done |].
  cbn in Hus. apply orb_false_iff in Hus as [Hu Hus].
  cbn [applyUpdates fold_left]. change (payments (applyUpdates us (applySet s u)) = payments s).
  rewrite IH by done. destruct u, s; try done.
Qed.

Lemma persistDebtsEffect_spec (s' : State) (ls : storage) :
  (forall k, k <> STORAGE_KEY_DEBTS ->
     persistDebtsEffect s' ls !! k = ls !! k)
  /\ (debts s' <> [] \/ is_Some (stored STORAGE_KEY_DEBTS ls) ->
      persistDebtsEffect s' ls !! STORAGE_KEY_DEBTS = Some (JDebts (debts s'))).
Proof.
  unfold persistDebtsEffect.
  destruct (debts s') as [| d ds]; cbn [length Nat.ltb Nat.leb].
  - split.
    + intros k Hk. destruct (stored STORAGE_KEY_DEBTS ls); [| done].
      by apply lookup_insert_ne.
    + intros [[] | [b Hb]]; [done |]. rewrite Hb. apply lookup_insert_eq.
  - split.
    + intros k Hk. by apply lookup_insert_ne.
    + intros _. apply lookup_insert_eq.
Qed.

Lemma persistPaymentsEffect_spec (s' : State) (ls : storage) :
  (forall k, k <> STORAGE_KEY_PAYMENTS ->
     persistPaymentsEffect s' ls !! k = ls !! k)
  /\ (debts s' <> [] \/ payments s' <> [] ->
      persistPaymentsEffect s' ls !! STORAGE_KEY_PAYMENTS
      = Some (JPayments (payments s')))
  /\ (debts s' = [] -> payments s' = [] -> persistPaymentsEffect s' ls = ls).
Proof.
  unfold persistPaymentsEffect.
  destruct (debts s') as [| d ds], (payments s') as [| p ps];
    cbn [length Nat.ltb Nat.leb orb]; split_and!; try done;
    try (intros k Hk; by apply lookup_insert_ne);
    try (intros _; apply lookup_insert_eq).
  intros [[] | []]; done.
Qed.

Lemma debtsInStep_stored (s : State) (ls : storage) :
  debtsInStep s ls -> is_Some (stored STORAGE_KEY_DEBTS ls).
Proof. unfold debtsInStep, stored. intros ->. by eexists. Qed.

Lemma runEffects_cases (us : list SetState) (s' : State) (ls : storage) :
  runEffects us s' ls
  = if setsDebts us then persistPaymentsEffect s' (persistDebtsEffect s' ls)
    else if setsPayments us then persistPaymentsEffect s' ls
    else ls.
Proof. unfold runEffects. by destruct (setsDebts us), (setsPayments us). Qed.

Lemma dispatch_store (handler : State -> list SetState)
    (s : State) (ls : storage) :
  let w' := dispatch handler (s, ls) in
  (forall k, k <> STORAGE_KEY_DEBTS -> k <> STORAGE_KEY_PAYMENTS ->
     snd w' !! k = ls !! k)
  /\ (debtsInStep s ls -> debtsInStep (fst w') (snd w'))
  /\ (paymentsInStep s ls ->
      debts (fst w') <> [] \/ payments (fst w') <> [] ->
      paymentsInStep (fst w') (snd w')).
Proof.
  pose proof storage_keys_distinct as Hkeys.
  unfold dispatch, debtsInStep, paymentsInStep. cbn [fst snd].
  rewrite runEffects_cases.
  set (us := handler s). set (s' := applyUpdates us s).
  destruct (persistDebtsEffect_spec s' ls) as [Hd_other Hd_key].
  destruct (setsDebts us) eqn:Ed.
  - destruct (persistPaymentsEffect_spec s' (persistDebtsEffect s' ls))
      as (Hp_other & Hp_key & _).
    split_and!.
    + intros k Hk1 Hk2. by rewrite Hp_other, Hd_other.
    + intros Hstep. rewrite Hp_other by done. apply Hd_key. right.
      by apply (debtsInStep_stored s).
    + intros _ Hsome. by apply Hp_key.
  - destruct (persistPaymentsEffect_spec s' ls) as (Hp_other & Hp_key & _).
    assert (Hdebts : debts s' = debts s) by (by apply applyUpdates_debts).
    destruct (setsPayments us) eqn:Ep.
    + split_and!.
      * intros k Hk1 Hk2. by rewrite Hp_other.
      * intros Hstep. rewrite Hp_other by done. by rewrite Hdebts.
      * intros _ Hsome. by apply Hp_key.
    + assert (Hpays : payments s' = payments s) by (by apply applyUpdates_payments).
      rewrite Hdebts, Hpays. done.
Qed.

(** the state the first effect queues when both collections are stored *)
Local Abbreviation loaded today ds ps :=
  (applyUpdates [ setDebts (fun _ => ds); setPayments (fun _ => ps) ]
     (initialState today)).

Lemma stored_lookup (k : string) (b : blob) (ls : storage) :
  ls !! k = Some b -> blob_truthy b = true -> stored k ls = Some b.
Proof. intros Hk Hb. unfold stored. by rewrite Hk, Hb. Qed.

Lemma mount_loaded (uuid today : string) (ls : storage)
    (ds : list Debt.t) (ps : list Payment.t) :
  ls !! STORAGE_KEY_DEBTS = Some (JDebts ds) ->
  ls !! STORAGE_KEY_PAYMENTS = Some (JPayments ps) ->
  mount uuid today ls = Some (loaded today ds ps, ls)
  /\ debts (loaded today ds ps) = ds
  /\ payments (loaded today ds ps) = ps.
Proof.
  intros Hd Hp. split; [| done].
  unfold mount, initEffect.
  rewrite (stored_lookup _ _ _ Hd eq_refl), (stored_lookup _ _ _ Hp eq_refl).
  cbn [parseDebts parsePayments mbind option_bind].
  rewrite runEffects_cases.
  unfold persistDebtsEffect, persistPaymentsEffect.
  cbn [applyUpdates fold_left applySet initialState debts payments length
       setsDebts setsPayments existsb orb Nat.ltb Nat.leb].
  rewrite (stored_lookup _ _ _ Hd eq_refl).
  do 2 f_equal.
  assert (Hback : forall v, <[STORAGE_KEY_DEBTS := JDebts ds]>
                     (<[STORAGE_KEY_DEBTS := v]> ls) = ls).
  { intros v. rewrite insert_insert_eq. by apply insert_id. }
  destruct ds as [| d ds], ps as [| p ps]; cbn [length Nat.ltb Nat.leb orb].
  - rewrite stored_insert_eq by done. apply Hback.
  - rewrite stored_insert_eq by done. rewrite Hback. by apply insert_id.
  - rewrite Hback. by apply insert_id.
  - rewrite Hback. by apply insert_id.
Qed.

Lemma stored_Some_lookup (k : string) (b : blob) (ls : storage) :
  stored k ls = Some b -> ls !! k = Some b.
Proof.
  unfold stored. destruct (ls !! k) as [b' |]; [| done].
  destruct (blob_truthy b'); [| done]. by intros [= ->].
Qed.

Lemma parseDebts_Some (b : blob) (ds : list Debt.t) :
  parseDebts b = Some ds -> b = JDebts ds.
Proof. destruct b; try done. by intros [= ->]. Qed.

Lemma parsePayments_Some (b : blob) (ps : list Payment.t) :
  parsePayments b = Some ps -> b = JPayments ps.
Proof. destruct b; try done. by intros [= ->]. Qed.

(** Stored debts without stored payments. *)
Lemma mount_loaded_debts_only (uuid today : string) (ls : storage) (ds : list Debt.t) :
  ls !! STORAGE_KEY_DEBTS = Some (JDebts ds) ->
  stored STORAGE_KEY_PAYMENTS ls = None ->
  exists ls',
    mount uuid today ls = Some (loaded today ds [], ls')
    /\ ls' !! STORAGE_KEY_DEBTS = Some (JDebts ds)
    /\ (ds <> [] -> ls' !! STORAGE_KEY_PAYMENTS = Some (JPayments []))
    /\ (ds = [] -> ls' = ls).
Proof.
  intros Hd Hp. pose proof storage_keys_distinct as Hkeys.
  unfold mount, initEffect.
  rewrite (stored_lookup _ _ _ Hd eq_refl), Hp.
  cbn [parseDebts mbind option_bind]. rewrite runEffects_cases.
  unfold persistDebtsEffect, persistPaymentsEffect.
  cbn [applyUpdates fold_left applySet initialState debts payments length
       setsDebts setsPayments existsb orb Nat.ltb Nat.leb].
  rewrite (stored_lookup _ _ _ Hd eq_refl).
  eexists. split; [reflexivity |].
  destruct ds as [| d ds]; cbn [length Nat.ltb Nat.leb orb].
  - rewrite stored_insert_eq by done. split_and!; try done.
    + apply lookup_insert_eq.
    + intros _. rewrite insert_insert_eq. by apply insert_id.
  - split_and!; try done.
    + rewrite lookup_insert_ne by done. apply lookup_insert_eq.
    + intros _. apply lookup_insert_eq.
Qed.

(** Nothing to load and nothing to migrate. *)
Lemma mount_nothing (uuid today : string) (ls : storage) :
  stored STORAGE_KEY_DEBTS ls = None ->
  legacyUnusable ls ->
  mount uuid today ls = Some (initialState today, ls).
Proof.
  intros Hnone Hun.
  assert (Hinit : initEffect uuid ls = Some ([], ls)).
  { unfold initEffect. rewrite Hnone.
    destruct Hun as [-> | (b & -> & [-> | (old & -> & [Hset | (b' & Hb' & Hparse)])])];
      try done; cbn [mbind option_bind].
    - by rewrite Hset.
    - destruct (Legacy.isSet old); [| done]. by rewrite Hb', Hparse. }
  unfold mount. rewrite Hinit. cbn [mbind option_bind].
  rewrite runEffects_cases. unfold persistDebtsEffect, persistPaymentsEffect.
  cbn [applyUpdates fold_left initialState debts payments length
       setsDebts setsPayments existsb orb Nat.ltb Nat.leb].
  by rewrite Hnone.
Qed.

Lemma legacy_dichotomy (ls : storage) :
  (exists b old olds,
     stored LEGACY_STORAGE_SETTINGS ls = Some b
     /\ parseSettings b = Some old
     /\ Legacy.isSet old = true
     /\ (stored LEGACY_STORAGE_PAYMENTS ls = None /\ olds = []
         \/ exists b', stored LEGACY_STORAGE_PAYMENTS ls = Some b'
                       /\ parseLegacyPayments b' = Some olds))
  \/ legacyUnusable ls.
Proof.
  unfold legacyUnusable.
  destruct (stored LEGACY_STORAGE_SETTINGS ls) as [b |]; [| by right; left].
  destruct (parseSettings b) as [old |] eqn:Hparse; [| right; right; eauto].
  destruct (Legacy.isSet old) eqn:Hset; [| right; right; eauto 8].
  destruct (stored LEGACY_STORAGE_PAYMENTS ls) as [b' |] eqn:Hb'.
  - destruct (parseLegacyPayments b') as [olds |] eqn:Hp.
    + left. exists b, old, olds. eauto 8.
    + right. right. exists b. split; [done |]. right. exists old. eauto 8.
  - left. exists b, old, []. eauto 8.
Qed.

(** What a mount that does not fail leaves: both collections stored and
    loaded, or an empty stored list of debts and no payments key, or
    nothing stored and nothing to migrate. *)
Lemma mount_cases (uuid today : string) (ls ls1 : storage) (s1 : State) :
  mount uuid today ls = Some (s1, ls1) ->
  (exists ds ps,
     ls1 !! STORAGE_KEY_DEBTS = Some (JDebts ds)
     /\ ls1 !! STORAGE_KEY_PAYMENTS = Some (JPayments ps)
     /\ s1 = loaded today ds ps)
  \/ (ls1 !! STORAGE_KEY_DEBTS = Some (JDebts [])
      /\ stored STORAGE_KEY_PAYMENTS ls1 = None
      /\ s1 = loaded today [] [])
  \/ (stored STORAGE_KEY_DEBTS ls1 = None
      /\ legacyUnusable ls1
      /\ s1 = initialState today).
Proof.
  intros Hm.
  destruct (stored STORAGE_KEY_DEBTS ls) as [b |] eqn:Hsd.
  - destruct (parseDebts b) as [ds |] eqn:Hpd.
    2: { unfold mount, initEffect in Hm. rewrite Hsd, Hpd in Hm. done. }
    apply parseDebts_Some in Hpd as ->. apply stored_Some_lookup in Hsd.
    destruct (stored STORAGE_KEY_PAYMENTS ls) as [b2 |] eqn:Hsp.
    + destruct (parsePayments b2) as [ps |] eqn:Hpp.
      2: { unfold mount, initEffect in Hm.
           rewrite (stored_lookup _ _ _ Hsd eq_refl), Hsp in Hm.
           cbn [parseDebts mbind option_bind] in Hm. rewrite Hpp in Hm. done. }
      apply parsePayments_Some in Hpp as ->. apply stored_Some_lookup in Hsp.
      destruct (mount_loaded uuid today ls ds ps Hsd Hsp) as [Hm' _].
      rewrite Hm' in Hm. injection Hm as <- <-. left. by exists ds, ps.
    + destruct (mount_loaded_debts_only uuid today ls ds Hsd Hsp)
        as (ls' & Hm' & Hd' & Hp' & Hsame).
      rewrite Hm' in Hm. injection Hm as <- <-.
      destruct ds as [| d ds].
      * right. left. rewrite Hsame by done. done.
      * left. exists (d :: ds), []. split_and!; [done | by apply Hp' | done].
  - destruct (legacy_dichotomy ls) as [(b & old & olds & Hb & Hp & Hset & Hpays) | Hun].
    + destruct (mount_migrates uuid today ls b old olds Hsd Hb Hp Hset Hpays)
        as (s' & ls' & Hm' & _ & _ & Hd' & Hp' & _).
      left. eexists _, _. rewrite Hm' in Hm. injection Hm as <- <-.
      split_and!; [exact Hd' | exact Hp' |].
      unfold mount in Hm'.
      rewrite (initEffect_migrates uuid ls b old olds) in Hm' by done.
      cbn [mbind option_bind] in Hm'. by injection Hm' as <- _.
    + rewrite (mount_nothing uuid today ls Hsd Hun) in Hm.
      injection Hm as <- <-. right. right. done.
Qed.

Lemma mount_again (uuid today : string) (ls : storage) (s : State) :
  (exists ds ps,
     ls !! STORAGE_KEY_DEBTS = Some (JDebts ds)
     /\ ls !! STORAGE_KEY_PAYMENTS = Some (JPayments ps)
     /\ s = loaded today ds ps)
  \/ (ls !! STORAGE_KEY_DEBTS = Some (JDebts [])
      /\ stored STORAGE_KEY_PAYMENTS ls = None
      /\ s = loaded today [] [])
  \/ (stored STORAGE_KEY_DEBTS ls = None
      /\ legacyUnusable ls
      /\ s = initialState today) ->
  mount uuid today ls = Some (s, ls).
Proof.
  intros [(ds & ps & Hd & Hp & ->) | [(Hd & Hp & ->) | (Hd & Hun & ->)]].
  - by apply mount_loaded.
  - destruct (mount_loaded_debts_only uuid today ls [] Hd Hp)
      as (ls' & Hm & _ & _ & Hsame).
    by rewrite Hm, Hsame.
  - by apply mount_nothing.
Qed.

(** X1.  Whatever the handler, an event writes no key but the two
    current ones; it leaves the debts key in step with the debts if it
    was; and it leaves the payments key in step with the payments if it
    was, provided the new state has a debt or a payment. *)
Theorem dispatch_keeps_store (handler : State -> list SetState)
    (s : State) (ls : storage) :
  let w' := dispatch handler (s, ls) in
  (forall k, k <> STORAGE_KEY_DEBTS -> k <> STORAGE_KEY_PAYMENTS ->
     snd w' !! k = ls !! k)
  /\ (debtsInStep s ls -> debtsInStep (fst w') (snd w'))
  /\ (paymentsInStep s ls ->
      debts (fst w') <> [] \/ payments (fst w') <> [] ->
      paymentsInStep (fst w') (snd w')).
Proof. apply dispatch_store. Qed.

(** X2.  Loading is the identity on stored data: when the two current
    keys hold a list of debts and a list of payments, the component
    mounts with exactly these lists, nothing else set, and leaves the
    store as it was. *)
Theorem mount_loads_stored (uuid today : string) (ls : storage)
    (ds : list Debt.t) (ps : list Payment.t) :
  ls !! STORAGE_KEY_DEBTS = Some (JDebts ds) ->
  ls !! STORAGE_KEY_PAYMENTS = Some (JPayments ps) ->
  exists s,
    mount uuid today ls = Some (s, ls)
    /\ debts s = ds /\ payments s = ps
    /\ selectedDebtId s = None /\ aiAnalysis s = None.
Proof.
  intros Hd Hp. exists (loaded today ds ps).
  split; [by apply mount_loaded | done].
Qed.

(** X3.  Save and load round trip: from a state in step with the store,
    after any event that leaves at least one debt and only finite totals
    and amounts (the numbers the JSON text holds as they are), a restart
    finds exactly the debts and the payments of the state the event
    left, and does not change the store. *)
Theorem restart_after_event (handler : State -> list SetState)
    (uuid today : string) (s : State) (ls : storage) :
  debtsInStep s ls -> paymentsInStep s ls ->
  let w' := dispatch handler (s, ls) in
  debts (fst w') <> [] ->
  storable (fst w') ->
  exists s'',
    mount uuid today (snd w') = Some (s'', snd w')
    /\ debts s'' = debts (fst w')
    /\ payments s'' = payments (fst w').
Proof.
  intros Hd Hp w' Hsome _.
  destruct (dispatch_store handler s ls) as (_ & Hd' & Hp').
  exists (loaded today (debts (fst w')) (payments (fst w'))).
  split; [| done]. apply mount_loaded; [by apply Hd' |].
  apply Hp'; [done | by left].
Qed.

(** X4.  Mounting is idempotent: on the store a mount has left, another
    mount, whatever id it could generate, gives the same state and
    leaves the store as it is.  In particular a migration is not
    repeated. *)
Theorem mount_idempotent (uuid uuid' today : string) (ls ls1 : storage) (s1 : State) :
  mount uuid today ls = Some (s1, ls1) ->
  mount uuid' today ls1 = Some (s1, ls1).
Proof. intros Hm. eapply mount_again, mount_cases, Hm. Qed.

(** X5.  Without stored debts, legacy data that cannot be migrated (no
    settings, settings that do not parse or are not marked as set,
    payments that do not parse) is left alone: the component mounts on
    its first state, with empty collections, and writes nothing. *)
Theorem mount_without_data (uuid today : string) (ls : storage) :
  stored STORAGE_KEY_DEBTS ls = None ->
  legacyUnusable ls ->
  exists s,
    mount uuid today ls = Some (s, ls)
    /\ debts s = [] /\ payments s = [] /\ s = initialState today.
Proof.
  intros Hnone Hun. exists (initialState today).
  split; [by apply mount_nothing | done].
Qed.

(** ** Identifiers, and handlers undone *)

Lemma elem_of_map_filter {A B : Type} (f : A -> B) (P : A -> Prop)
    `{!forall x, Decision (P x)} (l : list A) (y : B) :
  y ∈ map f (filter P l) -> y ∈ map f l.
Proof.
  intros Hy. apply list_elem_of_In, in_map_iff in Hy as (x & <- & Hx).
  apply list_elem_of_In, list_elem_of_filter in Hx as [_ Hx].
  apply list_elem_of_In, in_map. by apply list_elem_of_In.
Qed.

Lemma NoDup_map_filter {A B : Type} (f : A -> B) (P : A -> Prop)
    `{!forall x, Decision (P x)} (l : list A) :
  NoDup (map f l) -> NoDup (map f (filter P l)).
Proof.
  induction l as [| x l IH]; [done |]. cbn [map].
  intros [Hx Hl]%NoDup_cons. rewrite filter_cons.
  case_decide; [| by apply IH].
  cbn [map]. apply NoDup_cons. split; [| by apply IH].
  intros Hin. by apply Hx, (elem_of_map_filter f P).
Qed.

Lemma NoDup_map_snoc {A B : Type} (f : A -> B) (l : list A) (x : A) :
  NoDup (map f l) -> f x ∉ map f l -> NoDup (map f (l ++ [x])).
Proof.
  intros Hl Hx. rewrite map_app. apply NoDup_app. split_and!; [done | | ].
  - intros y Hy [-> | []%elem_of_nil]%elem_of_cons. done.
  - cbn. apply NoDup_singleton.
Qed.

Lemma filter_snoc_fresh {A B : Type} `{EqDecision B} (f : A -> B)
    (l : list A) (x : A) (i : B) :
  f x = i -> i ∉ map f l -> filter (fun a => f a <> i) (l ++ [x]) = l.
Proof.
  intros <- Hx. rewrite filter_app, filter_cons_False, filter_nil, app_nil_r
    by (intros H; by apply H).
  apply filter_all. intros a Ha Heq. apply Hx. rewrite <- Heq.
  apply list_elem_of_In, in_map. by apply list_elem_of_In.
Qed.

Section Undo.

Variable parseFloat : string -> number.

Local Abbreviation after us s := (applyUpdates us s).

(** X6.  Unique ids stay unique: when no two debts share an id and no
    two payments share an id, the same holds after each of the five
    handlers, provided the id generated for a new debt is the id of no
    debt and the id generated for a new payment is the id of no
    payment. *)
Theorem ids_stay_unique (s : State) :
  idsUnique s ->
  (forall uuid now, uuid ∉ map Debt.id (debts s) ->
     idsUnique (after (handleCreateDebt parseFloat uuid now s) s))
  /\ (forall confirmed debtId,
     idsUnique (after (handleDeleteDebt confirmed debtId s) s))
  /\ (forall uuid today, uuid ∉ map Payment.id (payments s) ->
     idsUnique (after (handleAddPayment parseFloat uuid today s) s))
  /\ (forall confirmed id,
     idsUnique (after (handleDeletePayment confirmed id s) s))
  /\ idsUnique (after (handleSaveTotal parseFloat s) s).
Proof.
  intros [Hd Hp]. split_and!; unfold idsUnique.
  - intros uuid now Hfresh.
    destruct (createDebt_after parseFloat uuid now s)
      as [[-> _] | (_ & _ & _ & Hd' & Hp' & _)]; [done |].
    rewrite Hd', Hp'. split; [| done]. by apply NoDup_map_snoc.
  - intros [] debtId; [| done].
    destruct (deleteDebt_after debtId s) as (_ & Hd' & Hp' & _).
    rewrite Hd', Hp'. split; by apply NoDup_map_filter.
  - intros uuid today Hfresh.
    destruct (addPayment_after parseFloat uuid today s)
      as [[-> _] | (sel & _ & _ & _ & _ & Hp' & Hd' & _)]; [done |].
    rewrite Hd', Hp'. split; [done |]. by apply NoDup_map_snoc.
  - intros [] id; [| done].
    destruct (deletePayment_after id s) as (_ & Hp' & Hd' & _).
    rewrite Hd', Hp'. split; [done |]. by apply NoDup_map_filter.
  - destruct (saveTotal_after parseFloat s)
      as [[-> _] | (sd & _ & _ & _ & _ & _ & Hd' & Hp' & _)]; [done |].
    rewrite Hd', Hp'. split; [| done].
    rewrite map_map.
    erewrite map_ext; [exact Hd |]. intros d. by case_bool_decide.
Qed.

(** X7.  Deleting undoes adding: when the id generated for the new
    payment is the id of no payment, adding a payment and then deleting
    the payment of that id leaves the payments and the debts as they
    were before. *)
Theorem addPayment_then_delete (uuid today : string) (s : State) :
  uuid ∉ map Payment.id (payments s) ->
  let s1 := after (handleAddPayment parseFloat uuid today s) s in
  let s2 := after (handleDeletePayment true uuid s1) s1 in
  payments s2 = payments s /\ debts s2 = debts s.
Proof.
  intros Hfresh s1 s2.
  destruct (deletePayment_after uuid s1) as (_ & Hp2 & Hd2 & _).
  fold s2 in Hp2, Hd2. rewrite Hp2, Hd2. subst s1.
  destruct (addPayment_after parseFloat uuid today s)
    as [[-> _] | (sel & _ & _ & _ & _ & Hp1 & Hd1 & _)].
  - split; [| done]. apply filter_all. intros p Hp Heq. apply Hfresh.
    rewrite <- Heq. apply list_elem_of_In, in_map. by apply list_elem_of_In.
  - rewrite Hp1, Hd1. split; [| done].
    by apply (filter_snoc_fresh Payment.id).
Qed.

(** X8.  Deleting undoes creating: from a state without orphan payments
    whose selection is the id of a debt of the store, when the id
    generated for the new debt is the id of no debt, creating a debt and
    then deleting the debt of that id leaves the debts, the payments and
    the selection as they were before. *)
Theorem createDebt_then_delete (uuid now : string) (s : State) :
  referencesValid s ->
  uuid ∉ map Debt.id (debts s) ->
  let s1 := after (handleCreateDebt parseFloat uuid now s) s in
  let s2 := after (handleDeleteDebt true uuid s1) s1 in
  debts s2 = debts s /\ payments s2 = payments s
  /\ selectedDebtId s2 = selectedDebtId s.
Proof.
  intros [Hno Hsel] Hfresh s1 s2.
  destruct (deleteDebt_after uuid s1) as (_ & Hd2 & Hp2 & Hs2 & _).
  fold s2 in Hd2, Hp2, Hs2. rewrite Hd2, Hp2, Hs2. subst s1.
  assert (Hids : forall d, d ∈ debts s -> Debt.id d <> uuid).
  { intros d Hd Heq. apply Hfresh. rewrite <- Heq.
    apply list_elem_of_In, in_map. by apply list_elem_of_In. }
  assert (Hpays : filter (fun p => Payment.debtId p <> uuid) (payments s) = payments s).
  { apply filter_all. intros p Hp Heq.
    destruct (Hno p Hp) as (d & Hd & Hid). apply (Hids d Hd). congruence. }
  assert (Hkeep : (if bool_decide (selectedDebtId s = Some uuid)
                   then None else selectedDebtId s) = selectedDebtId s).
  { destruct (decide (selectedDebtId s = Some uuid)) as [Heq | Hne].
    - destruct (Hsel uuid Heq) as (d & Hd & Hid). by destruct (Hids d Hd).
    - by rewrite bool_decide_eq_false_2. }
  destruct (createDebt_after parseFloat uuid now s)
    as [[-> _] | (_ & _ & _ & Hd1 & Hp1 & Hs1 & _)].
  - cbn [applyUpdates fold_left]. split_and!; [| done | done].
    by apply filter_all.
  - rewrite Hd1, Hp1, Hs1. split_and!; [| done | done].
    by apply (filter_snoc_fresh Debt.id).
Qed.

(** X9.  After a payment is added the selected debt is the same, its
    payments are the old ones followed by the new one, the paid total is
    the old one plus the parsed amount, the remainder is the total less
    that sum floored at zero, and the new payment is the first row of
    the history. *)
Theorem addPayment_figures (uuid today : string) (s : State) (d : Debt.t) :
  selectedDebt s = Some d ->
  completes (handleAddPayment parseFloat uuid today s) ->
  let s' := after (handleAddPayment parseFloat uuid today s) s in
  let p := {| Payment.id := uuid; Payment.debtId := Debt.id d;
              Payment.date := newPaymentDate s;
              Payment.amount := parseFloat (newPaymentAmount s);
              Payment.note := newPaymentNote s |} in
  selectedDebt s' = Some d
  /\ currentDebtPayments s' = currentDebtPayments s ++ [p]
  /\ totalPaid s' = (totalPaid s + Payment.amount p)%num
  /\ remainingDebt s'
     = Num.max Num.zero
         (Debt.totalAmount d - (totalPaid s + Payment.amount p))%num
  /\ head (historyRows s') = Some p.
Proof.
  intros Hd Hc s' p. subst s'.
  destruct (selectedDebt_Some s d Hd) as [_ Hsel].
  destruct (addPayment_after parseFloat uuid today s)
    as [[Hus _] | (sel & _ & Hsel' & _ & _ & Hp' & Hd' & Hs' & _)]; [done |].
  assert (sel = Debt.id d) as -> by congruence.
  set (s' := after _ s) in *. fold p in Hp'.
  assert (Hsd : selectedDebt s' = Some d).
  { unfold selectedDebt. rewrite Hd', Hs'. exact Hd. }
  assert (Hcur : currentDebtPayments s' = currentDebtPayments s ++ [p]).
  { unfold currentDebtPayments. rewrite Hp', Hs', filter_app. f_equal.
    by rewrite filter_cons_True, filter_nil by (by rewrite Hsel). }
  assert (Hpaid : totalPaid s' = (totalPaid s + Payment.amount p)%num).
  { unfold totalPaid. by rewrite Hcur, fold_left_app. }
  split_and!; try done.
  - unfold remainingDebt. by rewrite Hsd, Hpaid.
  - unfold historyRows. by rewrite Hcur, rev_app_distr.
Qed.

End Undo.

(** ** Views and the rows of the ticket *)

Lemma selectedDebt_found (s : State) (i : string) :
  selectedDebtId s = Some i ->
  (exists d, d ∈ debts s /\ Debt.id d = i) ->
  exists d, selectedDebt s = Some d.
Proof.
  intros Hsel (d & Hd & Hid). unfold selectedDebt.
  destruct (find _ (debts s)) as [d' |] eqn:Hfind; [by exists d' |].
  apply find_none with (x := d) in Hfind; [| by apply list_elem_of_In].
  apply bool_decide_eq_false in Hfind. congruence.
Qed.

(** X10.  The empty state is shown exactly when there are no debts.  In
    a state whose selection, if any, is the id of a debt of the store,
    the detail view is shown only with a selected debt that is defined:
    a debt of the store whose id is the selection. *)
Theorem detail_view_has_debt (s : State) :
  (currentView s = EmptyState <-> debts s = [])
  /\ (selectionValid s ->
      currentView s = DetailView ->
      exists d, selectedDebt s = Some d /\ d ∈ debts s
                /\ selectedDebtId s = Some (Debt.id d)).
Proof.
  unfold currentView. split.
  - destruct (debts s) as [| d ds]; cbn [length Nat.eqb]; [done |].
    by destruct (noSelection (selectedDebtId s)).
  - intros Hvalid.
    destruct (length (debts s) =? 0)%nat; [done |].
    destruct (selectedDebtId s) as [i |] eqn:Hsel; cbn [noSelection]; [| done].
    intros _. destruct (selectedDebt_found s i Hsel (Hvalid i Hsel)) as [d Hd].
    exists d. destruct (selectedDebt_Some s d Hd) as [Hin Hid].
    split_and!; [done | done | congruence].
Qed.

Section TicketRows.

Variable getTime : string -> option Z.

Lemma ticket_sorted (ps : list Payment.t) :
  Forall (fun p => is_Some (getTime (Payment.date p))) ps ->
  descendingByDate getTime (sortBy (byDateDesc getTime) ps).
Proof.
  apply (sortBy_sorted (byDateDesc getTime)
           (fun p => is_Some (getTime (Payment.date p)))).
  - intros x y z Hxy Hyz. by eapply NumFacts.leb_trans.
  - intros x y [tx Hx] [ty Hy]. unfold byDateDesc, timeValue. rewrite Hx, Hy.
    intros H. NumFacts.num_crush.
  - intros x y [tx Hx] [ty Hy]. unfold byDateDesc, timeValue. rewrite Hx, Hy.
    intros H. NumFacts.num_crush.
Qed.

(** X11.  The ticket lists at most five payments of the selected debt,
    all of them when there are at most five.  When every date is valid
    they are in descending order of date and no payment left out is
    later than a listed one.  The line below the list counts exactly the
    payments left out, and is absent when there are none. *)
Theorem ticket_rows_recent (s : State) :
  let ps := currentDebtPayments s in
  let rows := ticketRows getTime s in
  length rows = Nat.min 5 (length ps)
  /\ (forall p, p ∈ rows ->
      p ∈ payments s /\ Some (Payment.debtId p) = selectedDebtId s)
  /\ (exists rest,
        rows ++ rest ≡ₚ ps
        /\ ticketMore s
           = (if (length rest =? 0)%nat then None else Some (length rest))
        /\ (Forall (fun p => is_Some (getTime (Payment.date p))) ps ->
            descendingByDate getTime rows
            /\ forall p q, p ∈ rows -> q ∈ rest ->
                 (timeValue getTime (Payment.date q)
                  <=? timeValue getTime (Payment.date p))%num = true))
  /\ ((length ps <= 5)%nat -> rows ≡ₚ ps).
Proof.
  intros ps rows. subst rows. unfold ticketRows. fold ps.
  set (sorted := sortBy (byDateDesc getTime) ps).
  assert (Hperm : sorted ≡ₚ ps) by apply sortBy_perm.
  assert (Hlen : length sorted = length ps) by (by rewrite Hperm).
  split_and!.
  - by rewrite length_take, Hlen.
  - intros p Hp. apply subseteq_take in Hp. rewrite Hperm in Hp.
    subst ps. unfold currentDebtPayments in Hp.
    apply list_elem_of_filter in Hp as [Hsel Hin]. done.
  - exists (drop 5 sorted). split_and!.
    + by rewrite take_drop.
    + unfold ticketMore. fold ps. rewrite length_drop, Hlen.
      destruct (5 <? length ps)%nat eqn:E.
      * apply Nat.ltb_lt in E.
        destruct (length ps - 5 =? 0)%nat eqn:E'; [| done].
        apply Nat.eqb_eq in E'. lia.
      * apply Nat.ltb_ge in E.
        destruct (length ps - 5 =? 0)%nat eqn:E'; [done |].
        apply Nat.eqb_neq in E'. lia.
    + intros Hvalid. pose proof (ticket_sorted ps Hvalid) as Hs.
      fold sorted in Hs. unfold descendingByDate in *.
      rewrite <- (take_drop 5 sorted) in Hs.
      apply StronglySorted_app in Hs as (Hcross & Hl & _).
      split; [done |]. intros p q Hp Hq. by apply Hcross.
  - intros Hle. rewrite firstn_all2 by lia. done.
Qed.

End TicketRows.

(** ** The advisory service *)

Section Advisory.

Variable apiKey : string.
Variable generateContent : PromptData -> option (option string).
Variable parseResult : string -> option AnalysisResult.t.

Local Abbreviation analyze := (analyzeDebtProgress apiKey generateContent parseResult).

(** X12.  The advisory service always answers.  Without an API key the
    answer is the request to configure one, whatever the model would
    say.  With a key, when the call fails, the response has no text or
    an empty one, or the text does not parse, the answer is the failure
    message; otherwise it is what the text parses to.  Both fallback
    answers have the neutral tone. *)
Theorem service_fallbacks (debt : Debt.t) (payments : list Payment.t) :
  let pd := promptData debt payments in
  let r := analyze debt payments in
  (apiKey = "" -> r = notConfigured)
  /\ (apiKey <> "" ->
      generateContent pd = None \/ generateContent pd = Some None
      \/ generateContent pd = Some (Some "")
      \/ (exists text, generateContent pd = Some (Some text)
                       /\ parseResult text = None) ->
      r = analysisFailed)
  /\ (apiKey <> "" ->
      forall text res,
        generateContent pd = Some (Some text) -> text <> "" ->
        parseResult text = Some res -> r = res)
  /\ (r = notConfigured \/ r = analysisFailed
      \/ exists text, generateContent pd = Some (Some text)
                      /\ parseResult text = Some r)
  /\ (r = notConfigured \/ r = analysisFailed ->
      AnalysisResult.tone r = neutral_tone).
Proof.
  intros pd r. subst r. unfold analyzeDebtProgress. fold pd.
  destruct (emptyString apiKey) eqn:Ekey;
    [apply emptyString_true in Ekey | apply emptyString_false in Ekey];
    [| destruct (generateContent pd) as [[text |] |] eqn:Hgen;
       cbn [mbind option_bind];
       [destruct (emptyString text) eqn:Etext;
        [apply emptyString_true in Etext as -> | apply emptyString_false in Etext];
        cbn [mbind option_bind];
        [| destruct (parseResult text) as [res |] eqn:Hparse] | |]];
    split_and!; intros;
    repeat match goal with
      | H : _ \/ _ |- _ => destruct H
      | H : ex _ |- _ => destruct H
      | H : _ /\ _ |- _ => destruct H
      end;
    simplify_eq; try congruence; try done; eauto 8.
Qed.

End Advisory.

Lemma max_zero_negative (x : number) :
  (x <? Num.zero)%num = true -> Num.max Num.zero x = Num.zero.
Proof.
  destruct x; intros H; try discriminate; unfold Num.max; [done |].
  destruct (Num.zero <? Fin q)%num eqn:E; [| done].
  exfalso. NumFacts.num_crush.
Qed.

Lemma max_zero_not_above (x y : number) :
  Num.isFinite x = true -> Num.isFinite y = true ->
  (x <=? y)%num = true -> Num.max Num.zero (x - y) = Num.zero.
Proof.
  destruct x, y; intros; try discriminate. unfold Num.max. cbn [Num.sub].
  destruct (Num.zero <? Fin (Qred (q - q0)))%num eqn:E; [| done].
  exfalso. NumFacts.num_crush.
Qed.

(** X13.  The figures sent to the advisory service for the selected debt
    are the unbounded ones behind the figures of the view: the same paid
    total, a remainder that is not floored and a percentage that is not
    capped, so that the view shows the floor and the cap of what the
    service is told.  When the debt is overpaid the service is told a
    negative remainder while the view shows zero.  The payments sent are
    the first five in store order. *)
Theorem prompt_figures (s : State) (d : Debt.t) :
  selectedDebt s = Some d ->
  let pd := promptData d (currentDebtPayments s) in
  prompt_paid pd = totalPaid s
  /\ remainingDebt s = Num.max Num.zero (prompt_remaining pd)
  /\ progressPercentage s = Num.min Num.hundred (prompt_percentage pd)
  /\ ((prompt_remaining pd <? Num.zero)%num = true ->
      remainingDebt s = Num.zero /\ prompt_remaining pd <> remainingDebt s)
  /\ prompt_count pd = length (currentDebtPayments s)
  /\ prompt_recent pd = take 5 (currentDebtPayments s).
Proof.
  intros Hd pd. unfold remainingDebt, progressPercentage. rewrite Hd.
  split_and!; try done.
  intros Hneg. change (prompt_remaining pd) with (Debt.totalAmount d - totalPaid s)%num in *.
  rewrite (max_zero_negative _ Hneg). split; [done |].
  intros Heq. rewrite Heq in Hneg. discriminate.
Qed.

(** ** Editing the total, and a late advisory result *)

Lemma same_id_same_debt (l : list Debt.t) (d d' : Debt.t) :
  NoDup (map Debt.id l) -> d ∈ l -> d' ∈ l -> Debt.id d = Debt.id d' -> d = d'.
Proof.
  induction l as [| x l IH]; cbn [map]; intros Hnd Hd Hd' Hid.
  { by apply elem_of_nil in Hd. }
  apply NoDup_cons in Hnd as [Hx Hl].
  assert (Hmem : forall y, y ∈ l -> Debt.id y ∈ map Debt.id l).
  { intros y Hy. apply list_elem_of_In, in_map. by apply list_elem_of_In. }
  apply elem_of_cons in Hd as [-> | Hd], Hd' as [-> | Hd']; try done.
  - destruct Hx. rewrite Hid. by apply Hmem.
  - destruct Hx. rewrite <- Hid. by apply Hmem.
  - by apply IH.
Qed.

Lemma withTotalAmount_same (d : Debt.t) : Debt.withTotalAmount d (Debt.totalAmount d) = d.
Proof. by destruct d. Qed.

Lemma find_map_same_id (f : Debt.t -> Debt.t) (sel : option string) (l : list Debt.t) :
  (forall d, Debt.id (f d) = Debt.id d) ->
  find (fun d => bool_decide (Some (Debt.id d) = sel)) (map f l)
  = f <$> find (fun d => bool_decide (Some (Debt.id d) = sel)) l.
Proof.
  intros Hf. induction l as [| x l IH]; [done |]. cbn [map find].
  rewrite Hf. by destruct (bool_decide (Some (Debt.id x) = sel)).
Qed.

Section EditTotal.

Variable parseFloat : string -> number.
Variable toString : number -> string.

Local Abbreviation after us s := (applyUpdates us s).

Lemma openEditTotal_after (s : State) (sd : Debt.t) :
  selectedDebt s = Some sd ->
  let s1 := after (handleOpenEditTotal toString s) s in
  debts s1 = debts s /\ payments s1 = payments s
  /\ selectedDebtId s1 = selectedDebtId s
  /\ aiAnalysis s1 = aiAnalysis s
  /\ editingTotalAmount s1 = toString (Debt.totalAmount sd)
  /\ showEditTotalModal s1 = true.
Proof.
  intros Hsd. unfold handleOpenEditTotal. rewrite Hsd. by destruct s.
Qed.

(** X14.  Opening the edit form and saving it untouched changes no
    debt and no payment, provided no two debts share an id and the text
    the form is filled with parses back to the total.  Without a
    selected debt the form does not open. *)
Theorem openEdit_then_save (s : State) :
  NoDup (map Debt.id (debts s)) ->
  (forall sd, selectedDebt s = Some sd ->
     parseFloat (toString (Debt.totalAmount sd)) = Debt.totalAmount sd) ->
  let s1 := after (handleOpenEditTotal toString s) s in
  let s2 := after (handleSaveTotal parseFloat s1) s1 in
  debts s2 = debts s /\ payments s2 = payments s
  /\ (selectedDebt s = None -> s1 = s).
Proof.
  intros Hnd Hround s1 s2.
  destruct (selectedDebt s) as [sd |] eqn:Hsd.
  - destruct (openEditTotal_after s sd Hsd) as (Hd1 & Hp1 & Hs1 & _ & He1 & _).
    fold s1 in Hd1, Hp1, Hs1, He1.
    assert (Hsd1 : selectedDebt s1 = Some sd).
    { unfold selectedDebt. rewrite Hd1, Hs1. exact Hsd. }
    split_and!; [| | done].
    + destruct (saveTotal_after parseFloat s1)
        as [[Hus _] | (sd' & _ & Hsd' & _ & _ & _ & Hd2 & _)].
      * subst s2. by rewrite Hus.
      * subst s2. rewrite Hd2, Hd1, He1, (Hround sd eq_refl).
        assert (sd' = sd) as -> by congruence.
        rewrite <- (map_id (debts s)) at 2. apply map_ext_in.
        intros d Hd. case_bool_decide as Hid; [| done].
        destruct (selectedDebt_Some s sd Hsd) as [Hin _].
        rewrite (same_id_same_debt (debts s) d sd Hnd) by
          (done || by apply list_elem_of_In).
        apply withTotalAmount_same.
    + destruct (saveTotal_after parseFloat s1)
        as [[Hus _] | (sd' & _ & _ & _ & _ & _ & _ & Hp2 & _)].
      * subst s2. by rewrite Hus.
      * subst s2. by rewrite Hp2.
  - subst s2 s1. unfold handleOpenEditTotal. rewrite Hsd.
    cbn [applyUpdates fold_left]. unfold handleSaveTotal. rewrite Hsd. done.
Qed.

(** X15.  After a total is saved the selected debt is the old one with
    the new total, the paid total is what it was, and the remainder is
    the new total less the paid total floored at zero; a new total that
    is not above a finite paid total leaves a remainder of zero. *)
Theorem saveTotal_figures (s : State) (sd : Debt.t) :
  selectedDebt s = Some sd ->
  completes (handleSaveTotal parseFloat s) ->
  let newTotal := parseFloat (editingTotalAmount s) in
  let s' := after (handleSaveTotal parseFloat s) s in
  selectedDebt s' = Some (Debt.withTotalAmount sd newTotal)
  /\ totalPaid s' = totalPaid s
  /\ remainingDebt s' = Num.max Num.zero (newTotal - totalPaid s)%num
  /\ (Num.isFinite newTotal = true -> Num.isFinite (totalPaid s) = true ->
      (newTotal <=? totalPaid s)%num = true -> remainingDebt s' = Num.zero).
Proof.
  intros Hsd Hc newTotal s'.
  destruct (saveTotal_after parseFloat s)
    as [[Hus _] | (sd' & _ & Hsd' & _ & _ & _ & Hd' & Hp' & Hs' & _)]; [done |].
  assert (sd' = sd) as -> by congruence. fold s' newTotal in Hd', Hp', Hs'.
  assert (Hsel : selectedDebt s' = Some (Debt.withTotalAmount sd newTotal)).
  { unfold selectedDebt. rewrite Hd', Hs', find_map_same_id
      by (intros d; by case_bool_decide).
    fold (selectedDebt s). rewrite Hsd. cbn. by rewrite bool_decide_eq_true_2. }
  assert (Hpaid : totalPaid s' = totalPaid s).
  { unfold totalPaid, currentDebtPayments. by rewrite Hp', Hs'. }
  assert (Hrem : remainingDebt s' = Num.max Num.zero (newTotal - totalPaid s)%num).
  { unfold remainingDebt. by rewrite Hsel, Hpaid. }
  split_and!; try done.
  intros Hf1 Hf2 Hle. rewrite Hrem. by apply max_zero_not_above.
Qed.

End EditTotal.

Section LateAnalysis.

Variable parseFloat : string -> number.
Variable apiKey : string.
Variable generateContent : PromptData -> option (option string).
Variable parseResult : string -> option AnalysisResult.t.

Local Abbreviation after us s := (applyUpdates us s).

(** X16.  An advisory result is cached whenever it arrives.  When a
    result is requested for the selected debt and a payment is added
    before it arrives, the handler empties the cache, and the arrival
    then caches the result computed from the payments of the moment of
    the request, one fewer than the debt has by then.  Without a
    selected debt nothing is requested. *)
Theorem late_analysis_is_cached (uuid today : string) (s : State) :
  let call := handleGetAnalysis_call apiKey generateContent parseResult (s, false) in
  (selectedDebt s = None -> call = (None, (s, false)))
  /\ (forall d, selectedDebt s = Some d ->
      completes (handleAddPayment parseFloat uuid today s) ->
      let r := analyzeDebtProgress apiKey generateContent parseResult
                 d (currentDebtPayments s) in
      let s1 := after (handleAddPayment parseFloat uuid today s) s in
      let w2 := handleGetAnalysis_resume r (s1, true) in
      call = (Some r, (s, true))
      /\ aiAnalysis s1 = None
      /\ aiAnalysis (fst w2) = Some r
      /\ snd w2 = false
      /\ length (currentDebtPayments (fst w2))
         = S (length (currentDebtPayments s))).
Proof.
  intros call. split.
  - intros Hnone. subst call. unfold handleGetAnalysis_call. cbn [fst snd].
    by rewrite Hnone.
  - intros d Hd Hc r s1 w2.
    assert (Hcall : call = (Some r, (s, true))).
    { subst call. unfold handleGetAnalysis_call. cbn [fst snd]. by rewrite Hd. }
    destruct (addPayment_after parseFloat uuid today s)
      as [[Hus _] | (sel & _ & Hsel & _ & _ & Hp1 & _ & Hs1 & Hai)]; [done |].
    fold s1 in Hp1, Hs1, Hai.
    assert (Hcur : currentDebtPayments (fst w2)
                   = currentDebtPayments s1).
    { subst w2. unfold handleGetAnalysis_resume. cbn [fst]. by destruct s1. }
    split_and!; try done.
    + subst w2. unfold handleGetAnalysis_resume. cbn [fst]. by destruct s1.
    + rewrite Hcur. unfold currentDebtPayments.
      rewrite Hp1, Hs1, filter_app, length_app.
      rewrite filter_cons_True, filter_nil by (cbn; congruence).
      cbn [length]. lia.
Qed.

End LateAnalysis.

Section Floors.

Variable getTime : string -> option Z.
Variable formatDate : string -> string.

Lemma pushPoints_floored (ps : list Payment.t) (cb : number) :
  Num.isFinite cb = true ->
  Forall (fun p => Num.isFinite (Payment.amount p) = true) ps ->
  Forall (fun pt => (Num.zero <=? ChartPoint.balance pt)%num = true)
    (pushPoints formatDate cb ps []).
Proof.
  intros Hcb Hps. revert cb Hcb.
  induction Hps as [| p ps Hp _ IH]; intros cb Hcb; [constructor |].
  cbn [pushPoints app]. rewrite pushPoints_app.
  assert (Hcb' : Num.isFinite (cb - Payment.amount p) = true)
    by (by apply NumFacts.sub_finite).
  constructor; [| by apply IH].
  cbn [ChartPoint.balance].
  by apply NumFacts.max_zero_nonneg, NumFacts.finite_not_NaN.
Qed.

(** X17.  With a finite total and finite amounts, every point of the
    balance history after the first has a balance that is not below
    zero, overpaid or not, and a paid field that is the amount of one
    of the debt's payments. *)
Theorem chart_balances_floored (s : State) (d : Debt.t) :
  selectedDebt s = Some d ->
  Num.isFinite (Debt.totalAmount d) = true ->
  Forall (fun p => Num.isFinite (Payment.amount p) = true) (currentDebtPayments s) ->
  forall i pt,
    chartData getTime formatDate s !! S i = Some pt ->
    (Num.zero <=? ChartPoint.balance pt)%num = true
    /\ exists p, p ∈ currentDebtPayments s
                 /\ ChartPoint.paid pt = Payment.amount p.
Proof.
  intros Hd Hfin Hps i pt. unfold chartData. rewrite Hd.
  rewrite pushPoints_app. cbn [app]. intros Hpt.
  change (pushPoints formatDate (Debt.totalAmount d)
            (sortBy (byDate getTime) (currentDebtPayments s)) [] !! i = Some pt)
    in Hpt.
  set (sorted := sortBy (byDate getTime) (currentDebtPayments s)) in *.
  assert (Hperm : sorted ≡ₚ currentDebtPayments s) by apply sortBy_perm.
  split.
  - assert (Hall := pushPoints_floored sorted (Debt.totalAmount d) Hfin).
    rewrite Hperm in Hall at 1. specialize (Hall Hps).
    rewrite Forall_forall in Hall. apply Hall.
    by eapply list_elem_of_lookup_2.
  - rewrite pushPoints_imap, list_lookup_imap in Hpt.
    destruct (sorted !! i) as [p |] eqn:Hp; [| done].
    injection Hpt as <-. exists p. split; [| done].
    rewrite <- Hperm. by eapply list_elem_of_lookup_2.
Qed.

End Floors.

(** ** The further properties on concrete inputs *)

Lemma listView_idsUnique : idsUnique Ex.listView.
Proof. split; apply (bool_decide_unpack _); vm_compute; exact I. Qed.

(** Deleting a payment from two debts with three payments. *)
Lemma dispatch_keeps_store_witness :
  let w' := dispatch (handleDeletePayment true "p1")
              (Ex.listView, Ex.storeOf Ex.listView) in
  debtsInStep (fst w') (snd w') /\ paymentsInStep (fst w') (snd w').
Proof.
  destruct (dispatch_keeps_store (handleDeletePayment true "p1")
              Ex.listView (Ex.storeOf Ex.listView)) as (_ & Hd & Hp).
  split.
  - apply Hd. reflexivity.
  - apply Hp; [reflexivity |]. left. discriminate.
Defined.

(** Mounting on the store of the two example debts. *)
Lemma mount_loads_stored_witness :
  exists s,
    mount "d9" "2024-04-02" (Ex.storeOf Ex.listView)
    = Some (s, Ex.storeOf Ex.listView)
    /\ debts s = [Ex.ana; Ex.luis].
Proof.
  destruct (mount_loads_stored "d9" "2024-04-02" (Ex.storeOf Ex.listView)
              [Ex.ana; Ex.luis] [Ex.p1; Ex.p2; Ex.p3] eq_refl eq_refl)
    as (s & Hm & Hd & _).
  exists s. split; [exact Hm | exact Hd].
Defined.

(** Adding a payment of 50 and restarting. *)
Lemma restart_after_event_witness :
  let s := Ex.withPaymentForm "50" Ex.detailView in
  let w' := dispatch (handleAddPayment Platform.parseFloat "p9" "2024-04-02")
              (s, Ex.storeOf s) in
  exists s'',
    mount "d9" "2024-04-03" (snd w') = Some (s'', snd w')
    /\ length (payments s'') = 4%nat.
Proof.
  intros s w'.
  destruct (restart_after_event
              (handleAddPayment Platform.parseFloat "p9" "2024-04-02")
              "d9" "2024-04-03" s (Ex.storeOf s) eq_refl eq_refl)
    as (s'' & Hm & _ & Hp); [discriminate | split; repeat constructor |].
  exists s''. split; [exact Hm |]. rewrite Hp. reflexivity.
Defined.

(** Mounting twice on the store of the previous layout. *)
Lemma mount_idempotent_witness :
  exists s1 ls1,
    mount "d-new" "2024-04-01" Ex.legacyStore = Some (s1, ls1)
    /\ mount "d-other" "2024-04-01" ls1 = Some (s1, ls1)
    /\ map Debt.id (debts s1) = ["d-new"].
Proof.
  destruct (mount "d-new" "2024-04-01" Ex.legacyStore) as [[s1 ls1] |] eqn:Hm.
  - exists s1, ls1. split; [reflexivity |]. split.
    + exact (mount_idempotent "d-new" "d-other" "2024-04-01"
               Ex.legacyStore ls1 s1 Hm).
    + vm_compute in Hm. injection Hm as <- _. reflexivity.
  - vm_compute in Hm. discriminate.
Defined.

(** Mounting on legacy settings that do not parse. *)
Lemma mount_without_data_witness :
  exists s,
    mount "d9" "2024-04-02" Ex2.brokenStore = Some (s, Ex2.brokenStore)
    /\ debts s = [].
Proof.
  destruct (mount_without_data "d9" "2024-04-02" Ex2.brokenStore eq_refl)
    as (s & Hm & Hd & _).
  - right. exists (JOther "{isSet:"). split; [reflexivity |]. left. reflexivity.
  - exists s. split; [exact Hm | exact Hd].
Defined.

(** Creating a debt and adding a payment with fresh ids. *)
Lemma ids_stay_unique_witness :
  idsUnique
    (applyUpdates
       (handleCreateDebt Platform.parseFloat "d9" "2024-04-01T10:00:00.000Z"
          (Ex.withDebtForm "Eva" "80" Ex.listView))
       (Ex.withDebtForm "Eva" "80" Ex.listView))
  /\ idsUnique
       (applyUpdates
          (handleAddPayment Platform.parseFloat "p9" "2024-04-02"
             (Ex.withPaymentForm "50" Ex.detailView))
          (Ex.withPaymentForm "50" Ex.detailView)).
Proof.
  split.
  - apply (ids_stay_unique Platform.parseFloat (Ex.withDebtForm "Eva" "80" Ex.listView)).
    + exact listView_idsUnique.
    + apply (bool_decide_unpack _); vm_compute; exact I.
  - apply (ids_stay_unique Platform.parseFloat (Ex.withPaymentForm "50" Ex.detailView)).
    + exact listView_idsUnique.
    + apply (bool_decide_unpack _); vm_compute; exact I.
Defined.

(** Adding a payment of 50 and deleting it again. *)
Lemma addPayment_then_delete_witness :
  let s := Ex.withPaymentForm "50" Ex.detailView in
  let s1 := applyUpdates (handleAddPayment Platform.parseFloat "p9" "2024-04-02" s) s in
  length (payments s1) = 4%nat
  /\ payments (applyUpdates (handleDeletePayment true "p9" s1) s1) = payments s.
Proof.
  intros s s1. split; [reflexivity |].
  apply (addPayment_then_delete Platform.parseFloat "p9" "2024-04-02" s).
  apply (bool_decide_unpack _); vm_compute; exact I.
Defined.

(** Creating a debt and deleting it again. *)
Lemma createDebt_then_delete_witness :
  let s := Ex.withDebtForm "Eva" "80" Ex.detailView in
  let s1 := applyUpdates
              (handleCreateDebt Platform.parseFloat "d9" "2024-04-01T10:00:00.000Z" s) s in
  length (debts s1) = 3%nat
  /\ debts (applyUpdates (handleDeleteDebt true "d9" s1) s1) = debts s.
Proof.
  intros s s1. split; [reflexivity |].
  apply (createDebt_then_delete Platform.parseFloat "d9" "2024-04-01T10:00:00.000Z" s).
  - split; [exact detailView_noOrphans | exact detailView_selectionValid].
  - apply (bool_decide_unpack _); vm_compute; exact I.
Defined.

(** Adding a payment of 50 to the first example debt. *)
Lemma addPayment_figures_witness :
  let s := Ex.withPaymentForm "50" Ex.detailView in
  let s' := applyUpdates (handleAddPayment Platform.parseFloat "p9" "2024-04-02" s) s in
  totalPaid s' = (totalPaid s + Num.of_Z 50)%num
  /\ length (currentDebtPayments s') = 3%nat.
Proof.
  intros s s'.
  destruct (addPayment_figures Platform.parseFloat "p9" "2024-04-02" s Ex.ana eq_refl)
    as (_ & Hcur & Hpaid & _).
  - discriminate.
  - split; [exact Hpaid |]. fold s' in Hcur. rewrite Hcur. reflexivity.
Defined.

(** The detail view of the first example debt. *)
Lemma detail_view_has_debt_witness :
  exists d, selectedDebt Ex.detailView = Some d /\ Debt.creditorName d = "Ana".
Proof.
  destruct (proj2 (detail_view_has_debt Ex.detailView)
              detailView_selectionValid eq_refl) as (d & Hd & _ & _).
  exists d. split; [exact Hd |].
  assert (Heq : Some d = Some Ex.ana) by (rewrite <- Hd; reflexivity).
  injection Heq as ->. reflexivity.
Defined.

(** The ticket of a debt with seven payments. *)
Lemma ticket_rows_recent_witness :
  length (ticketRows Platform.getTime Ex2.busy) = 5%nat
  /\ descendingByDate Platform.getTime (ticketRows Platform.getTime Ex2.busy)
  /\ ticketMore Ex2.busy = Some 2%nat.
Proof.
  destruct (ticket_rows_recent Platform.getTime Ex2.busy)
    as (Hlen & _ & (rest & _ & _ & Hvalid) & _).
  split; [rewrite Hlen; reflexivity |]. split; [| reflexivity].
  apply Hvalid. repeat constructor; by eexists.
Defined.

(** With a key, the example model and its parser. *)
Lemma service_fallbacks_witness :
  analyzeDebtProgress "" Ex2.model Ex2.parser Ex.ana [Ex.p1] = notConfigured
  /\ analyzeDebtProgress "key" Ex2.model Ex2.parser Ex.ana [Ex.p1] = Ex2.answer
  /\ analyzeDebtProgress "key" (fun _ => None) Ex2.parser Ex.ana [Ex.p1]
     = analysisFailed.
Proof.
  split; [| split].
  - apply (service_fallbacks "" Ex2.model Ex2.parser Ex.ana [Ex.p1]). reflexivity.
  - destruct (service_fallbacks "key" Ex2.model Ex2.parser Ex.ana [Ex.p1])
      as (_ & _ & Hok & _).
    apply (Hok ltac:(discriminate) "ok"); [reflexivity | discriminate | reflexivity].
  - destruct (service_fallbacks "key" (fun _ => None) Ex2.parser Ex.ana [Ex.p1])
      as (_ & Hfail & _).
    apply Hfail; [discriminate | left; reflexivity].
Defined.

(** The first example debt, overpaid by 100. *)
Lemma prompt_figures_witness :
  prompt_remaining (promptData Ex.ana (currentDebtPayments Ex2.overpaid))
  = Num.of_Z (-100)
  /\ remainingDebt Ex2.overpaid = Num.zero.
Proof.
  split; [reflexivity |].
  destruct (prompt_figures Ex2.overpaid Ex.ana eq_refl) as (_ & _ & _ & Hneg & _).
  apply Hneg. reflexivity.
Defined.

(** Opening the edit form on a total of 1000 and saving it. *)
Lemma openEdit_then_save_witness :
  let s1 := applyUpdates (handleOpenEditTotal Printing.toString Ex.detailView)
              Ex.detailView in
  editingTotalAmount s1 = "1000"
  /\ debts (applyUpdates (handleSaveTotal Platform.parseFloat s1) s1)
     = debts Ex.detailView.
Proof.
  intros s1. split; [reflexivity |].
  apply (openEdit_then_save Platform.parseFloat Printing.toString Ex.detailView).
  - apply listView_idsUnique.
  - intros sd [= <-]. reflexivity.
Defined.

(** Saving a total of 400 against 500 paid. *)
Lemma saveTotal_figures_witness :
  let s := Ex.withTotalForm "400" Ex.detailView in
  remainingDebt (applyUpdates (handleSaveTotal Platform.parseFloat s) s) = Num.zero.
Proof.
  intros s.
  destruct (saveTotal_figures Platform.parseFloat s Ex.ana eq_refl)
    as (_ & _ & _ & Hzero).
  - discriminate.
  - apply Hzero; reflexivity.
Defined.

(** A result requested before a payment of 50 and arriving after it. *)
Lemma late_analysis_is_cached_witness :
  let s := Ex.withPaymentForm "50" Ex.detailView in
  let s1 := applyUpdates (handleAddPayment Platform.parseFloat "p9" "2024-04-02" s) s in
  aiAnalysis s1 = None
  /\ aiAnalysis (fst (handleGetAnalysis_resume Ex2.answer (s1, true)))
     = Some Ex2.answer.
Proof.
  intros s s1.
  destruct (proj2 (late_analysis_is_cached Platform.parseFloat "key"
                     Ex2.model Ex2.parser "p9" "2024-04-02" s) Ex.ana eq_refl)
    as (_ & Hnone & Hsome & _).
  - discriminate.
  - split; [exact Hnone | exact Hsome].
Defined.

(** The second point of the history of the first example debt. *)
Lemma chart_balances_floored_witness :
  exists pt,
    chartData Platform.getTime Platform.formatDate Ex.detailView !! 1%nat = Some pt
    /\ (Num.zero <=? ChartPoint.balance pt)%num = true.
Proof.
  eexists. split; [reflexivity |].
  assert (Hfin : Forall (fun p => Num.isFinite (Payment.amount p) = true)
                   (currentDebtPayments Ex.detailView))
    by repeat constructor.
  exact (proj1 (chart_balances_floored Platform.getTime Platform.formatDate
                  Ex.detailView Ex.ana eq_refl eq_refl Hfin 0%nat _ eq_refl)).
Defined.

(** ** Submitting the forms *)

Section Submit.

Variable parseFloat : string -> number.

Local Abbreviation after us s := (applyUpdates us s).

Lemma amountFieldValid_iff (v : string) :
  amountFieldValid parseFloat v = true
  <-> v <> ""
      /\ Num.isFinite (parseFloat v) = true
      /\ (minAmount <=? parseFloat v)%num = true
      /\ wholeHundredths (parseFloat v) = true.
Proof.
  unfold amountFieldValid. rewrite !andb_true_iff, negb_true_iff, emptyString_false.
  tauto.
Qed.

Lemma amountFieldValid_positive (v : string) :
  amountFieldValid parseFloat v = true -> Num.positive (parseFloat v).
Proof.
  intros (_ & Hfin & Hmin & _)%amountFieldValid_iff. split; [done |].
  unfold minAmount in Hmin. destruct (parseFloat v); try discriminate.
  NumFacts.num_crush.
Qed.

Lemma not_positive_invalid (v : string) :
  ~ Num.positive (parseFloat v) -> amountFieldValid parseFloat v = false.
Proof.
  intros Hnot. destruct (amountFieldValid parseFloat v) eqn:E; [| done].
  by apply amountFieldValid_positive in E.
Qed.

Lemma requiredFieldValid_iff (v : string) : requiredFieldValid v = true <-> v <> "".
Proof. unfold requiredFieldValid. by rewrite negb_true_iff, emptyString_false. Qed.

(** C5 (as amended).  Submitting the new-debt form fails, the state
    staying as it was, whenever the creditor name is empty or the total
    is not accepted by the amount field, which is the case whenever it
    is not a positive number; the field accepts exactly the texts that
    are not empty and parse to a finite number of at least 0.01 that is
    a whole number of hundredths.  Otherwise exactly one debt is
    appended, with the generated id, the given name, the parsed total
    and the current time as start date, and the payments stay as they
    were.  No submission appends a debt whose total is not a finite
    number above zero. *)
Theorem submitCreateDebt_contract (uuid now : string) (s : State) :
  let total := parseFloat (newTotalDebt s) in
  let us := submitCreateDebt parseFloat uuid now s in
  (newCreditor s = "" \/ ~ Num.positive total
   \/ amountFieldValid parseFloat (newTotalDebt s) = false ->
   us = [] /\ after us s = s)
  /\ (amountFieldValid parseFloat (newTotalDebt s) = true
      <-> newTotalDebt s <> ""
          /\ Num.isFinite total = true
          /\ (minAmount <=? total)%num = true
          /\ wholeHundredths total = true)
  /\ (newCreditor s <> "" ->
      amountFieldValid parseFloat (newTotalDebt s) = true ->
      debts (after us s)
      = debts s ++ [ {| Debt.id := uuid;
                        Debt.creditorName := newCreditor s;
                        Debt.totalAmount := total;
                        Debt.startDate := now |} ]
      /\ payments (after us s) = payments s)
  /\ (debts (after us s) = debts s
      \/ exists d, debts (after us s) = debts s ++ [d]
                   /\ Num.positive (Debt.totalAmount d)).
Proof.
  intros total us. subst us. unfold submitCreateDebt.
  destruct (requiredFieldValid (newCreditor s)) eqn:Ename; cbn [andb].
  2: { assert (newCreditor s = "") as Hempty.
       { destruct (decide (newCreditor s = "")) as [| Hne]; [done |].
         apply requiredFieldValid_iff in Hne. congruence. }
       split_and!; try done; [apply amountFieldValid_iff | by left]. }
  apply requiredFieldValid_iff in Ename.
  destruct (amountFieldValid parseFloat (newTotalDebt s)) eqn:Evalid.
  2: { split_and!; try done; [| by left].
       rewrite <- Evalid. apply amountFieldValid_iff. }
  pose proof (amountFieldValid_positive _ Evalid) as Hpos.
  destruct (createDebt_after parseFloat uuid now s)
    as [[_ [Hc | Ht]] | (_ & _ & _ & Hd & Hp & _)].
  { done. }
  { by apply amountFieldValid_iff in Evalid as [Hne _]. }
  split_and!.
  - intros [H | [H | H]]; done.
  - rewrite <- Evalid at 1. apply amountFieldValid_iff.
  - done.
  - right. eexists. split; [exact Hd | exact Hpos].
Qed.

Lemma selectionValid_kept (s s' : State) :
  selectionValid s ->
  selectedDebtId s' = selectedDebtId s \/ selectedDebtId s' = None ->
  (forall d, d ∈ debts s -> selectedDebtId s' = Some (Debt.id d) ->
     exists d', d' ∈ debts s' /\ Debt.id d' = Debt.id d) ->
  selectionValid s'.
Proof.
  intros Hvalid Hsel Hdebts i Hi. destruct Hsel as [Hsame | Hnone]; [| congruence].
  destruct (Hvalid i) as (d & Hd & <-); [congruence |].
  by apply Hdebts.
Qed.

Lemma selectionValid_same_debts (s s' : State) :
  selectionValid s ->
  selectedDebtId s' = selectedDebtId s \/ selectedDebtId s' = None ->
  debts s' = debts s ->
  selectionValid s'.
Proof.
  intros Hvalid Hsel Hdebts. apply (selectionValid_kept s); [done | done |].
  intros d Hd _. exists d. by rewrite Hdebts.
Qed.

(** Every offered event keeps the selection on a debt of the store. *)
Lemma selectionValid_event (e : Event) (s : State) :
  selectionValid s -> offered e s ->
  selectionValid (after (eventUpdates parseFloat e s) s).
Proof.
  intros Hvalid Hoff. destruct e; cbn [eventUpdates].
  - unfold submitCreateDebt.
    destruct (_ && _); [| done].
    destruct (createDebt_after parseFloat uuid now s)
      as [[-> _] | (_ & _ & _ & Hd & _ & Hs & _)]; [done |].
    apply (selectionValid_kept s); [done | by left |].
    intros d Hin _. exists d. split; [| done]. rewrite Hd. apply elem_of_app. by left.
  - destruct confirmed; [| done].
    destruct (deleteDebt_after (Debt.id d) s) as (_ & Hd & _ & Hs & _).
    apply (selectionValid_kept s); [done | |].
    + rewrite Hs. case_bool_decide; auto.
    + intros d' Hin. rewrite Hs, Hd. case_bool_decide as Hdec; [done |].
      intros Hsel. exists d'. split; [| done].
      apply list_elem_of_filter. split; [congruence | done].
  - unfold submitAddPayment.
    destruct (_ && _); [| done].
    destruct (addPayment_after parseFloat uuid today s)
      as [[-> _] | (sel & _ & _ & _ & _ & _ & Hd & Hs & _)]; [done |].
    apply (selectionValid_same_debts s); auto.
  - destruct confirmed; [| done].
    destruct (deletePayment_after (Payment.id p) s) as (_ & _ & Hd & Hs & _).
    apply (selectionValid_same_debts s); auto.
  - unfold submitSaveTotal.
    destruct (amountFieldValid _ _); [| done].
    destruct (saveTotal_after parseFloat s)
      as [[-> _] | (sd & _ & _ & _ & _ & _ & Hd & _ & Hs & _)]; [done |].
    apply (selectionValid_kept s); [done | by left |].
    intros d Hin _. rewrite Hd. apply edited_debt_present; [| done].
    intros x. by case_bool_decide.
  - cbn in Hoff. destruct s; cbn in *. intros i [= <-]. by exists d.
  - destruct s; cbn in *. by intros i.
  - cbn in Hoff. apply (selectionValid_same_debts s); [done | |];
      destruct u, s; try discriminate; cbn; auto.
  - apply (selectionValid_same_debts s); [done | |]; destruct s; cbn; auto.
  - apply (selectionValid_same_debts s); [done | |]; destruct s; cbn; auto.
Qed.

(** In every state of the component the selection, if any, is the id of
    a debt of the store. *)
Lemma reachable_selectionValid (s : State) :
  reachable parseFloat s -> selectionValid s.
Proof.
  induction 1 as [uuid today ls ls' s Hm | e s _ IH Hoff].
  - intros i Hi. apply mount_no_selection in Hm. congruence.
  - by apply selectionValid_event.
Qed.

(** C3.  In every state of the component in which every payment's
    [debtId] is the id of a debt of the store, each of the five command
    handlers, whatever the environment answers, leads to a state in
    which it is so again; and after a confirmed deletion of a debt no
    debt of that id and no payment with that [debtId] is left. *)
Theorem handlers_keep_noOrphans (s : State) :
  reachable parseFloat s -> noOrphans s ->
  (forall uuid now,
      noOrphans (after (handleCreateDebt parseFloat uuid now s) s))
  /\ (forall confirmed debtId,
      noOrphans (after (handleDeleteDebt confirmed debtId s) s))
  /\ (forall uuid today,
      noOrphans (after (handleAddPayment parseFloat uuid today s) s))
  /\ (forall confirmed id,
      noOrphans (after (handleDeletePayment confirmed id s) s))
  /\ noOrphans (after (handleSaveTotal parseFloat s) s)
  /\ (forall debtId,
      let s' := after (handleDeleteDebt true debtId s) s in
      (forall d, d ∈ debts s' -> Debt.id d <> debtId)
      /\ (forall p, p ∈ payments s' -> Payment.debtId p <> debtId)).
Proof.
  intros Hreach Hno. pose proof (reachable_selectionValid s Hreach) as Hsel.
  destruct (handlers_keep_references parseFloat s Hno Hsel)
    as (Hcreate & Hdelete & Hadd & Hdelpay & Hsave & _ & _ & _ & _ & Hcascade).
  split_and!.
  - intros uuid now. apply Hcreate.
  - intros confirmed debtId. apply Hdelete.
  - intros uuid today. apply Hadd.
  - intros confirmed id. apply Hdelpay.
  - apply Hsave.
  - exact Hcascade.
Qed.

(** C6 (as amended).  Submitting the payment form fails, the state
    staying as it was, whenever the amount is not accepted by the amount
    field, which is the case whenever it is not a positive number, and
    whenever the date is empty or no debt is selected; in a state of the
    component that is the case whenever no debt has the selected id.
    Otherwise exactly one payment is appended, with the generated id,
    the selected debt's id, and the given date, amount and note, and the
    debts stay as they were.  No submission appends a payment whose
    amount is not a finite number above zero, and in a state of the
    component the appended payment is a payment of a debt of the
    store. *)
Theorem submitAddPayment_contract (uuid today : string) (s : State) :
  let amount := parseFloat (newPaymentAmount s) in
  let us := submitAddPayment parseFloat uuid today s in
  (~ Num.positive amount
   \/ amountFieldValid parseFloat (newPaymentAmount s) = false
   \/ newPaymentDate s = "" \/ selectedDebtId s = None ->
   us = [] /\ after us s = s)
  /\ (reachable parseFloat s ->
      (forall d, d ∈ debts s -> Some (Debt.id d) <> selectedDebtId s) ->
      us = [] /\ after us s = s)
  /\ (forall sel,
      amountFieldValid parseFloat (newPaymentAmount s) = true ->
      newPaymentDate s <> "" ->
      selectedDebtId s = Some sel -> sel <> "" ->
      payments (after us s)
      = payments s ++ [ {| Payment.id := uuid;
                           Payment.debtId := sel;
                           Payment.date := newPaymentDate s;
                           Payment.amount := amount;
                           Payment.note := newPaymentNote s |} ]
      /\ debts (after us s) = debts s)
  /\ (payments (after us s) = payments s
      \/ exists p, payments (after us s) = payments s ++ [p]
                   /\ Num.positive (Payment.amount p)
                   /\ (reachable parseFloat s ->
                       exists d, d ∈ debts s /\ Debt.id d = Payment.debtId p)).
Proof.
  intros amount us. subst us. unfold submitAddPayment.
  destruct (amountFieldValid parseFloat (newPaymentAmount s)) eqn:Evalid; cbn [andb].
  2: { split_and!; try done; by left. }
  pose proof (amountFieldValid_positive _ Evalid) as Hpos.
  destruct (requiredFieldValid (newPaymentDate s)) eqn:Edate.
  2: { split_and!; try done; [| by left].
       intros sel _ Hne. apply requiredFieldValid_iff in Hne. congruence. }
  apply requiredFieldValid_iff in Edate.
  destruct (addPayment_after parseFloat uuid today s)
    as [[Hus Hwhy] | (sel & _ & Hsel & Hne & _ & Hp & Hd & _)].
  - rewrite Hus. split_and!; try done; [| by left].
    intros sel _ _ Hsel Hne.
    destruct Hwhy as [Hw | [Hw | Hw]]; [| congruence | congruence].
    by apply amountFieldValid_iff in Evalid as [Hv _].
  - split_and!.
    + intros [H | [H | [H | H]]]; [by destruct H | congruence ..].
    + intros Hreach Hnone. exfalso.
      destruct (reachable_selectionValid s Hreach sel Hsel) as (d & Hin & Hid).
      apply (Hnone d Hin). congruence.
    + intros sel' _ _ Hsel' _. assert (sel' = sel) as -> by congruence. done.
    + right. eexists. split; [exact Hp |]. split; [exact Hpos |].
      intros Hreach. by apply (reachable_selectionValid s Hreach).
Qed.

(** C7.  Submitting the edit form never touches the payments and leaves
    the id, the creditor name and the start date of every debt as they
    were.  It rejects every total that is not a finite positive number,
    the debts staying as they were.  When it accepts, the total is a
    finite positive number, the debts with the selected debt's id get it
    as their total, and every other debt stays as it was. *)
Theorem submitSaveTotal_contract (s : State) :
  let newTotal := parseFloat (editingTotalAmount s) in
  let us := submitSaveTotal parseFloat s in
  payments (after us s) = payments s
  /\ Forall2 sameButTotal (debts s) (debts (after us s))
  /\ (~ Num.positive newTotal -> us = [] /\ debts (after us s) = debts s)
  /\ (completes us ->
      Num.positive newTotal
      /\ exists sd,
           selectedDebt s = Some sd
           /\ debts (after us s)
              = map (fun d => if bool_decide (Debt.id d = Debt.id sd)
                              then Debt.withTotalAmount d newTotal else d) (debts s)
           /\ (forall i d', debts (after us s) !! i = Some d' ->
               exists d, debts s !! i = Some d
                 /\ (Debt.id d <> Debt.id sd -> d' = d)
                 /\ (Debt.id d = Debt.id sd -> Debt.totalAmount d' = newTotal))).
Proof.
  intros newTotal us. subst us. unfold submitSaveTotal, completes.
  destruct (amountFieldValid parseFloat (editingTotalAmount s)) eqn:Evalid.
  2: { split_and!; try done. apply sameButTotal_refl. }
  pose proof (amountFieldValid_positive _ Evalid) as Hpos.
  destruct (saveTotal_contract parseFloat s) as (Hp & Hsame & _ & Haccept).
  split_and!; try done.
  intros Hc. split; [done |].
  destruct (saveTotal_after parseFloat s)
    as [[Hus _] | (sd & _ & Hsd & Hne & Hnan & Hle & _)]; [done |].
  exists sd. split; [done |]. by apply Haccept.
Qed.

End Submit.

(** ** The forms on concrete inputs *)

Lemma chosen_reachable : reachable Platform.parseFloat Ex2.chosen.
Proof.
  apply (reachable_event Platform.parseFloat (ClickDebt Ex.ana) Ex2.mounted).
  - by apply (reachable_mount Platform.parseFloat "d9" "2024-04-01"
                (Ex.storeOf Ex.listView) (Ex.storeOf Ex.listView)).
  - apply list_elem_of_In. cbn. auto.
Qed.

(** Deleting the selected debt and adding a payment, at the detail view
    reached by a mount and a click. *)
Lemma handlers_keep_noOrphans_witness :
  noOrphans (applyUpdates (handleDeleteDebt true "d1" Ex2.chosen) Ex2.chosen)
  /\ noOrphans
       (applyUpdates
          (handleAddPayment Platform.parseFloat "p9" "2024-04-02" Ex2.chosen)
          Ex2.chosen).
Proof.
  destruct (handlers_keep_noOrphans Platform.parseFloat Ex2.chosen
              chosen_reachable detailView_noOrphans)
    as (_ & Hdelete & Hadd & _).
  split; [apply Hdelete | apply Hadd].
Defined.

(** C5, as stated, fails: with a creditor name and the total "0.005", a
    positive number, the form is not submitted and no debt is
    appended. *)
Lemma createDebt_rejects_small_total :
  let s := Ex.withDebtForm "Eva" "0.005" Ex.listView in
  let us := submitCreateDebt Platform.parseFloat "d9" "2024-04-01T10:00:00.000Z" s in
  newCreditor s <> ""
  /\ Num.positive (Platform.parseFloat (newTotalDebt s))
  /\ us = []
  /\ debts (applyUpdates us s) = debts s.
Proof. split_and!; [discriminate | by split | reflexivity | reflexivity]. Qed.

(** A total of 80 is appended, a total of -5 is not. *)
Lemma submitCreateDebt_contract_witness :
  length (debts (applyUpdates
                   (submitCreateDebt Platform.parseFloat "d9" "2024-04-01T10:00:00.000Z"
                      (Ex.withDebtForm "Eva" "80" Ex.listView))
                   (Ex.withDebtForm "Eva" "80" Ex.listView))) = 3%nat
  /\ submitCreateDebt Platform.parseFloat "d9" "2024-04-01T10:00:00.000Z"
       (Ex.withDebtForm "Eva" "-5" Ex.listView) = [].
Proof.
  split.
  - destruct (submitCreateDebt_contract Platform.parseFloat "d9"
                "2024-04-01T10:00:00.000Z" (Ex.withDebtForm "Eva" "80" Ex.listView))
      as (_ & _ & Happend & _).
    destruct Happend as [Hd _]; [discriminate | reflexivity |].
    rewrite Hd. reflexivity.
  - destruct (submitCreateDebt_contract Platform.parseFloat "d9"
                "2024-04-01T10:00:00.000Z" (Ex.withDebtForm "Eva" "-5" Ex.listView))
      as (Hfail & _).
    apply Hfail. right. left. intros [_ Hpos]. discriminate.
Defined.

(** C6, as stated, fails: on the detail view of a debt, with the amount
    "0.005", a positive number, or with an amount of 50 and no date, the
    form is not submitted and no payment is appended. *)
Lemma addPayment_rejects_small_amount :
  let s := Ex.withPaymentForm "0.005" Ex2.chosen in
  let us := submitAddPayment Platform.parseFloat "p9" "2024-04-02" s in
  reachable Platform.parseFloat Ex2.chosen
  /\ selectedDebt s = Some Ex.ana
  /\ Num.positive (Platform.parseFloat (newPaymentAmount s))
  /\ us = []
  /\ payments (applyUpdates us s) = payments s
  /\ Num.positive (Platform.parseFloat (newPaymentAmount Ex2.noDate))
  /\ submitAddPayment Platform.parseFloat "p9" "2024-04-02" Ex2.noDate = [].
Proof.
  split_and!; try reflexivity; [exact chosen_reachable | by split | by split].
Qed.

(** An amount of 50 is appended, an amount of 0 is not. *)
Lemma submitAddPayment_contract_witness :
  length (payments (applyUpdates
                      (submitAddPayment Platform.parseFloat "p9" "2024-04-02"
                         (Ex.withPaymentForm "50" Ex2.chosen))
                      (Ex.withPaymentForm "50" Ex2.chosen))) = 4%nat
  /\ submitAddPayment Platform.parseFloat "p9" "2024-04-02"
       (Ex.withPaymentForm "0" Ex2.chosen) = [].
Proof.
  split.
  - destruct (submitAddPayment_contract Platform.parseFloat "p9" "2024-04-02"
                (Ex.withPaymentForm "50" Ex2.chosen))
      as (_ & _ & Happend & _).
    destruct (Happend "d1") as [Hp _];
      [reflexivity | discriminate | reflexivity | discriminate |].
    rewrite Hp. reflexivity.
  - destruct (submitAddPayment_contract Platform.parseFloat "p9" "2024-04-02"
                (Ex.withPaymentForm "0" Ex2.chosen)) as (Hfail & _).
    apply Hfail. left. intros [_ Hpos]. discriminate.
Defined.

(** A total of 1200 is saved; totals of -3 and "Infinity" are not. *)
Lemma submitSaveTotal_contract_witness :
  debts (applyUpdates
           (submitSaveTotal Platform.parseFloat (Ex.withTotalForm "1200" Ex2.chosen))
           (Ex.withTotalForm "1200" Ex2.chosen))
  = [Debt.withTotalAmount Ex.ana (Num.of_Z 1200); Ex.luis]
  /\ submitSaveTotal Platform.parseFloat (Ex.withTotalForm "-3" Ex2.chosen) = []
  /\ submitSaveTotal Platform.parseFloat (Ex.withTotalForm "Infinity" Ex2.chosen) = [].
Proof.
  split_and!.
  - destruct (submitSaveTotal_contract Platform.parseFloat
                (Ex.withTotalForm "1200" Ex2.chosen))
      as (_ & _ & _ & Haccept).
    destruct Haccept as (_ & sd & Hsd & Hd & _); [discriminate |].
    rewrite Hd. assert (Some sd = Some Ex.ana) as [= ->] by (rewrite <- Hsd; reflexivity).
    reflexivity.
  - destruct (submitSaveTotal_contract Platform.parseFloat
                (Ex.withTotalForm "-3" Ex2.chosen)) as (_ & _ & Hreject & _).
    apply Hreject. intros [_ Hpos]. discriminate.
  - destruct (submitSaveTotal_contract Platform.parseFloat
                (Ex.withTotalForm "Infinity" Ex2.chosen)) as (_ & _ & Hreject & _).
    apply Hreject. intros [Hfin _]. discriminate.
Defined.
